(** * The snake engine of [app.py]

    A shallow embedding of the game-state engine of the Streamlit snake game:
    [place_food], [handle_direction], [reset_game], [move_snake_logic], the
    session-state initialisation and the gate of the game loop in [app];
    then [render_board] and one run of the script [app] as a whole, with
    its buttons, its sleep and its reruns.

    Python integers are [Z]; the [speed] field is an IEEE-754 binary64 number
    and is modelled by Rocq's primitive floats, so that [speed *= 0.95]
    rounds exactly as it does in Python.  The [random] module is modelled by
    an entropy stream together with a cursor that is part of the state. *)

From Stdlib Require Import String Ascii DecimalString.
From Stdlib Require Import ZArith List Bool Lia PrimFloat Permutation.
Import ListNotations.
Local Open Scope Z_scope.

Set Warnings "-inexact-float".

(** ** Configuration *)

Definition GRID_SIZE : Z := 20.
Definition INITIAL_SPEED : float := 0.2%float.
Definition TILE_SIZE : string := "15px"%string.

(** ** Cells and session state *)

(** A cell or a direction: a Python tuple of two integers. *)
Definition Cell : Type := (Z * Z)%type.

(** Tuple equality [a == b]. *)
Definition cell_eqb (a b : Cell) : bool :=
  (fst a =? fst b) && (snd a =? snd b).

(** List membership [c in l]. *)
Definition cell_in (c : Cell) (l : list Cell) : bool :=
  existsb (cell_eqb c) l.

(** The fields of [st.session_state], and [rand_state]: the state of the
    [random] module, the number of draws [place_food] has made so far. *)
Record SessionState : Type := mkSession {
  snake : list Cell;
  direction : Cell;
  food : Cell;
  score : Z;
  game_over : bool;
  is_playing : bool;
  speed : float;
  rand_state : nat
}.

(** What a call does: it returns, it raises [IndexError] ([snake[0]] on an
    empty list), or it is still inside [while True] when the fuel is spent. *)
Inductive result (A : Type) : Type :=
| Done (a : A)
| IndexError
| Running.

Arguments Done {A} a.
Arguments IndexError {A}.
Arguments Running {A}.

(** The lifecycle phase, read off the two flags.  The code keeps no flag that
    tells READY from PAUSED: both are [IDLE] here. *)
Inductive Phase : Type := IDLE | PLAYING | GAME_OVER.

Definition phase_of (s : SessionState) : Phase :=
  if game_over s then GAME_OVER
  else if is_playing s then PLAYING
  else IDLE.

(** Field updates, written as assignments to [st.session_state]. *)
Definition set_direction (d : Cell) (s : SessionState) : SessionState :=
  mkSession (snake s) d (food s) (score s) (game_over s) (is_playing s)
            (speed s) (rand_state s).

Definition set_snake (l : list Cell) (s : SessionState) : SessionState :=
  mkSession l (direction s) (food s) (score s) (game_over s) (is_playing s)
            (speed s) (rand_state s).

Definition set_flags (over playing : bool) (s : SessionState) : SessionState :=
  mkSession (snake s) (direction s) (food s) (score s) over playing
            (speed s) (rand_state s).

(** ** The random source *)

(** [random.randint(a, b)]: an integer of [a..b], here the raw entropy value
    reduced into the range. *)
Definition randint (a b raw : Z) : Z := a + raw mod (b - a + 1).

(** The grid as a list of cells, row by row. *)
Definition all_cells : list Cell :=
  flat_map (fun x => map (fun y => (Z.of_nat x, Z.of_nat y))
                         (seq 0 (Z.to_nat GRID_SIZE)))
           (seq 0 (Z.to_nat GRID_SIZE)).

Definition in_grid (c : Cell) : Prop :=
  0 <= fst c < GRID_SIZE /\ 0 <= snd c < GRID_SIZE.

(** The grid cells that lie in [body], and whether [body] covers the grid. *)
Definition occupied (body : list Cell) : list Cell :=
  filter (fun c => cell_in c body) all_cells.

Definition board_full (body : list Cell) : bool :=
  forallb (fun c => cell_in c body) all_cells.

Section Engine.

(** The entropy of the [random] module: element [i] holds the two raw values
    read by the two [randint] calls of the [i]-th iteration of the loop of
    [place_food], the only consumer of the module. *)
Variable rng : nat -> Z * Z.

(** The cell [(x, y)] drawn by iteration [i]. *)
Definition draw (i : nat) : Cell :=
  (randint 0 (GRID_SIZE - 1) (fst (rng i)),
   randint 0 (GRID_SIZE - 1) (snd (rng i))).

(** Every grid cell keeps turning up: what a uniform source does with
    probability one. *)
Definition fair : Prop :=
  forall (p : nat) (c : Cell), in_grid c -> exists k : nat, draw (p + k)%nat = c.

(** ** [place_food] *)

(** [while True: x = randint(..); y = randint(..);
     if (x, y) not in snake: return (x, y)], from cursor [pos]. *)
Fixpoint place_food (fuel : nat) (pos : nat) (body : list Cell)
  : result (Cell * nat) :=
  match fuel with
  | O => Running
  | S fuel' =>
      let c := draw pos in
      if negb (cell_in c body) then Done (c, S pos)
      else place_food fuel' (S pos) body
  end.

(** ** [handle_direction] *)

Definition handle_direction (new_direction : Cell) (s : SessionState)
  : SessionState :=
  if game_over s then s
  else
    let '(current_dx, current_dy) := direction s in
    let '(new_dx, new_dy) := new_direction in
    if negb (cell_eqb (new_dx, new_dy) (- current_dx, - current_dy))
    then set_direction new_direction s
    else s.

(** ** [initialize_game_state] and [reset_game] *)

(** [initialize_game_state]: [session] is [None] while ['snake'] is not in
    [st.session_state]; [cursor] is the state the [random] module starts in.
    The snake is assigned before [place_food] is called, which therefore
    sees the one-cell snake. *)
Definition initialize_game_state (fuel : nat) (session : option SessionState)
  (cursor : nat) : result SessionState :=
  match session with
  | Some s => Done s
  | None =>
      let body := [(GRID_SIZE / 2, GRID_SIZE / 2)] in
      match place_food fuel cursor body with
      | Done (f, cursor') =>
          Done (mkSession body (0, 1) f 0 false false INITIAL_SPEED cursor')
      | IndexError => IndexError
      | Running => Running
      end
  end.

(** [reset_game]; the closing [st.rerun()] hands control back to the driver
    and changes no field. *)
Definition reset_game (fuel : nat) (s : SessionState) : result SessionState :=
  let body := [(GRID_SIZE / 2, GRID_SIZE / 2)] in
  match place_food fuel (rand_state s) body with
  | Done (f, cursor') =>
      Done (mkSession body (0, 1) f 0 false true INITIAL_SPEED cursor')
  | IndexError => IndexError
  | Running => Running
  end.

(** ** [move_snake_logic] *)

Definition new_head_of (s : SessionState) (head : Cell) : Cell :=
  (fst head + fst (direction s), snd head + snd (direction s)).

(** The collision test: wall or self. *)
Definition collides (new_head : Cell) (body : list Cell) : bool :=
  (fst new_head <? 0) || (fst new_head >=? GRID_SIZE) ||
  (snd new_head <? 0) || (snd new_head >=? GRID_SIZE) ||
  cell_in new_head body.

(** [if score % 5 == 0 and speed > 0.05: speed *= 0.95]. *)
Definition speed_up (new_score : Z) (v : float) : float :=
  if (new_score mod 5 =? 0) && PrimFloat.ltb 0.05%float v
  then PrimFloat.mul v 0.95%float
  else v.

Definition move_snake_logic (fuel : nat) (s : SessionState)
  : result SessionState :=
  match snake s with
  | [] => IndexError
  | head :: _ =>
      let new_head := new_head_of s head in
      if collides new_head (snake s) then Done (set_flags true false s)
      else
        let body := new_head :: snake s in
        if cell_eqb new_head (food s) then
          let new_score := score s + 1 in
          match place_food fuel (rand_state s) body with
          | Done (f, cursor') =>
              Done (mkSession body (direction s) f new_score (game_over s)
                              (is_playing s) (speed_up new_score (speed s))
                              cursor')
          | IndexError => IndexError
          | Running => Running
          end
        else Done (set_snake (removelast body) s)
  end.

(** ** The driver's calls *)

(** One pass of the game loop of [app]: [move_snake_logic] runs only while
    [is_playing and not game_over]. *)
Definition tick (fuel : nat) (s : SessionState) : result SessionState :=
  if is_playing s && negb (game_over s) then move_snake_logic fuel s
  else Done s.

(** The pause button, offered while [is_playing]. *)
Definition pause (s : SessionState) : SessionState :=
  if is_playing s then set_flags (game_over s) false s else s.

Inductive Event : Type :=
| Turn (d : Cell)
| Tick
| Reset
| Pause.

Definition run_event (fuel : nat) (e : Event) (s : SessionState)
  : result SessionState :=
  match e with
  | Turn d => Done (handle_direction d s)
  | Tick => tick fuel s
  | Reset => reset_game fuel s
  | Pause => Done (pause s)
  end.

Fixpoint run_events (fuel : nat) (es : list Event) (s : SessionState)
  : result SessionState :=
  match es with
  | [] => Done s
  | e :: es' =>
      match run_event fuel e s with
      | Done s' => run_events fuel es' s'
      | IndexError => IndexError
      | Running => Running
      end
  end.

(** The states of a session: the freshly initialised one, and whatever the
    driver's calls make of it. *)
Inductive reachable : SessionState -> Prop :=
| reachable_init (fuel cursor : nat) (s : SessionState) :
    initialize_game_state fuel None cursor = Done s -> reachable s
| reachable_step (fuel : nat) (e : Event) (s s' : SessionState) :
    reachable s -> run_event fuel e s = Done s' -> reachable s'.

(** A run of [turn] and [tick] calls (and pauses), without [reset]. *)
Definition no_reset (e : Event) : bool :=
  match e with Reset => false | _ => true end.

End Engine.

(** ** Uniform draws, counted *)

(** The source that reads its draws off a list of cells. *)
Definition rng_of (draws : list Cell) (i : nat) : Z * Z := nth i draws (0, 0).

(** All sequences of [n] grid cells: the equally likely outcomes of [n]
    uniform draws. *)
Fixpoint draw_sequences (n : nat) : list (list Cell) :=
  match n with
  | O => [[]]
  | S n' => flat_map (fun c => map (cons c) (draw_sequences n')) all_cells
  end.

(** Whether the loop of [place_food] is still running after [n] iterations
    fed with [draws]. *)
Definition still_running (body : list Cell) (n : nat) (draws : list Cell) : bool :=
  match place_food (rng_of draws) n 0 body with
  | Running => true
  | _ => false
  end.

(** ** Speed levels *)

(** The speeds a session can have: [INITIAL_SPEED] after [k] speed-ups. *)
Fixpoint level (k : nat) : float :=
  match k with
  | O => INITIAL_SPEED
  | S k' => PrimFloat.mul (level k') 0.95%float
  end.

(** The last speed-up leaves the speed below this: 0.95 times 0.05. *)
Definition SPEED_FLOOR : float := PrimFloat.mul 0.05%float 0.95%float.

(** The number of speed-ups a session can make. *)
Definition MAX_LEVEL : nat := 28.

(** [level k'] is at most [level k] for all [k <= k' <= MAX_LEVEL]. *)
Definition levels_descend : bool :=
  forallb (fun k =>
             forallb (fun k' => PrimFloat.leb (level k') (level k))
                     (seq k (S MAX_LEVEL - k)))
          (seq 0 (S MAX_LEVEL)).

(** Every [level k], [k <= MAX_LEVEL], is above [SPEED_FLOOR]. *)
Definition levels_above_floor : bool :=
  forallb (fun k => PrimFloat.ltb SPEED_FLOOR (level k)) (seq 0 (S MAX_LEVEL)).

(** The speed of [s] is [INITIAL_SPEED] after [k] speed-ups. *)
Definition speed_rank (s : SessionState) (k : nat) : Prop :=
  (k <= MAX_LEVEL)%nat /\ speed s = level k.

(** ** [render_board] *)

(** [str(n)] and the formatting of an integer in an f-string. *)
Definition str (n : Z) : string := NilZero.string_of_int (Z.to_int n).

(** The double quote of the HTML attributes. *)
Definition dquote : string := String (ascii_of_nat 34) EmptyString.

(** [range(n)]. *)
Definition range (n : Z) : list Z := map Z.of_nat (seq 0 (Z.to_nat n)).

(** The style sheet, an f-string over [GRID_SIZE] and [TILE_SIZE]. *)
Definition styles : string :=
  ("
    <style>
        .snake-grid {
            display: grid;
            grid-template-columns: repeat("
  ++ str GRID_SIZE
  ++ ", "
  ++ TILE_SIZE
  ++ ");
            grid-template-rows: repeat("
  ++ str GRID_SIZE
  ++ ", "
  ++ TILE_SIZE
  ++ ");
            border: 2px solid #333;
            background-color: #222; /* Darker background */
            margin: 20px auto; /* Center the board */
            border-radius: 8px;
            box-shadow: 0 4px 12px rgba(0,0,0,0.5);
        }
        .tile {
            width: 100%;
            height: 100%;
        }
        .snake-head {
            background-color: #4CAF50; /* Green for head */
            border-radius: 4px;
            box-shadow: 0 0 5px #7CFC00;
        }
        .snake-body {
            background-color: #66BB6A; /* Lighter green for body */
            border-radius: 2px;
        }
        .food {
            background-color: #FF5722; /* Orange/Red for food */
            border-radius: 50%;
            animation: pulse 1s infinite alternate;
        }
        @keyframes pulse {
            from { transform: scale(0.8); opacity: 0.8; }
            to { transform: scale(1.0); opacity: 1.0; }
        }
        .center-content {
            display: flex;
            flex-direction: column;
            align-items: center;
        }
    </style>
    ")%string.

(** The class of the tile at row [x], column [y]: the body of the two
    nested loops. *)
Definition tile_class (body : list Cell) (snake_head food_cell : Cell)
  (x y : Z) : string :=
  let is_snake := cell_in (x, y) body in
  let is_head := cell_eqb (x, y) snake_head in
  let is_food := cell_eqb (x, y) food_cell in
  ("tile" ++ (if is_head then " snake-head"
              else if is_snake then " snake-body"
              else if is_food then " food"
              else EmptyString))%string.

(** The classes of all tiles, in the order the loops emit them. *)
Definition tiles (s : SessionState) (snake_head : Cell) : list string :=
  flat_map (fun x => map (fun y => tile_class (snake s) snake_head (food s) x y)
                         (range GRID_SIZE))
           (range GRID_SIZE).

(** [<div class="{tile_class}"></div>]. *)
Definition tile_div (cls : string) : string :=
  ("<div class=" ++ dquote ++ cls ++ dquote ++ "></div>")%string.

(** The grid: [snake[0]] raises [IndexError] on an empty snake. *)
Definition grid_html (s : SessionState) : result string :=
  match snake s with
  | [] => IndexError
  | snake_head :: _ =>
      Done (fold_left (fun html cls => html ++ tile_div cls)
                      (tiles s snake_head)
                      ("<div class=" ++ dquote ++ "snake-grid" ++ dquote ++ ">")
            ++ "</div>")%string
  end.

(** [render_board]: the markdown it hands to the placeholder. *)
Definition render_board (s : SessionState) : result string :=
  match grid_html s with
  | Done html =>
      Done (styles ++ "<div class=" ++ dquote ++ "center-content" ++ dquote
            ++ ">" ++ html ++ "</div>")%string
  | IndexError => IndexError
  | Running => Running
  end.

(** How many tiles of a frame carry the class [cls]. *)
Definition count_class (cls : string) (l : list string) : nat :=
  List.length (filter (String.eqb cls) l).

(** ** [app]: one run of the script *)

(** The status line, computed at the top of the script. *)
Definition status_text (s : SessionState) : string :=
  if game_over s then ("💥 GAME OVER! Score: " ++ str (score s))%string
  else if is_playing s then "🟢 Playing..."%string
  else "Ready to Play!"%string.

(** The buttons of the page, by label.  [st.button(label)] is true in the
    run that follows a click on that button, and at most one button is
    clicked between two runs. *)
Inductive Button : Type :=
| ButtonUp | ButtonLeft | ButtonRight | ButtonDown
| PauseGame | StartGame | PlayAgain.

Definition button_eqb (a b : Button) : bool :=
  match a, b with
  | ButtonUp, ButtonUp | ButtonLeft, ButtonLeft | ButtonRight, ButtonRight
  | ButtonDown, ButtonDown | PauseGame, PauseGame | StartGame, StartGame
  | PlayAgain, PlayAgain => true
  | _, _ => false
  end.

Definition clicked (click : option Button) (b : Button) : bool :=
  match click with
  | Some c => button_eqb c b
  | None => false
  end.

(** What a run shows and does besides changing the session: the score and
    status at the top, the board if [render_board] was called, the
    [time.sleep], and whether the run ended in [st.rerun()]. *)
Record Frame : Type := mkFrame {
  shown_score : Z;
  shown_status : string;
  shown_board : option string;
  slept : option float;
  reran : bool
}.

Section App.

Variable rng : nat -> Z * Z.

(** The end of the script: the game loop, or the final board. *)
Definition game_loop (fuel : nat) (top_score : Z) (top_status : string)
  (s : SessionState) : result (SessionState * Frame) :=
  if is_playing s && negb (game_over s) then
    match move_snake_logic rng fuel s with
    | Done s' =>
        match render_board s' with
        | Done board =>
            Done (s', mkFrame top_score top_status (Some board)
                              (Some (speed s')) true)
        | IndexError => IndexError
        | Running => Running
        end
    | IndexError => IndexError
    | Running => Running
    end
  else if game_over s || negb (is_playing s) then
    match render_board s with
    | Done board =>
        Done (s, mkFrame top_score top_status (Some board) None false)
    | IndexError => IndexError
    | Running => Running
    end
  else Done (s, mkFrame top_score top_status None None false).

(** [app], after a click on [click] (or none): the session is initialised
    if it is new, the direction buttons are read in the order Up, Left,
    Right, Down, then the pause or start button, then the game loop runs.
    [st.rerun()] ends the run on the spot. *)
Definition app (fuel : nat) (click : option Button)
  (session : option SessionState) (cursor : nat)
  : result (SessionState * Frame) :=
  match initialize_game_state rng fuel session cursor with
  | Done s0 =>
      let top_score := score s0 in
      let top_status := status_text s0 in
      let s1 := if clicked click ButtonUp
                then handle_direction (-1, 0) s0 else s0 in
      let s2 := if clicked click ButtonLeft
                then handle_direction (0, -1) s1 else s1 in
      let s3 := if clicked click ButtonRight
                then handle_direction (0, 1) s2 else s2 in
      let s4 := if clicked click ButtonDown
                then handle_direction (1, 0) s3 else s3 in
      if is_playing s4 then
        if clicked click PauseGame then
          Done (set_flags (game_over s4) false s4,
                mkFrame top_score top_status None None true)
        else game_loop fuel top_score top_status s4
      else if game_over s4 || negb (is_playing s4) then
        if clicked click (if negb (game_over s4) then StartGame else PlayAgain)
        then
          match reset_game rng fuel s4 with
          | Done s5 => Done (s5, mkFrame top_score top_status None None true)
          | IndexError => IndexError
          | Running => Running
          end
        else game_loop fuel top_score top_status s4
      else game_loop fuel top_score top_status s4
  | IndexError => IndexError
  | Running => Running
  end.

(** The sessions the page can be in: after the first run, and after every
    further run. *)
Inductive app_reachable : SessionState -> Prop :=
| app_first (fuel : nat) (click : option Button) (cursor : nat)
    (s : SessionState) (fr : Frame) :
    app fuel click None cursor = Done (s, fr) -> app_reachable s
| app_next (fuel : nat) (click : option Button) (s s' : SessionState)
    (fr : Frame) :
    app_reachable s ->
    app fuel click (Some s) (rand_state s) = Done (s', fr) ->
    app_reachable s'.

End App.

(** The direction a click passes to [handle_direction], if it is a click
    on a direction button, and the session after the four direction
    buttons have been read. *)
Definition click_direction (click : option Button) : option Cell :=
  match click with
  | Some ButtonUp => Some (-1, 0)
  | Some ButtonLeft => Some (0, -1)
  | Some ButtonRight => Some (0, 1)
  | Some ButtonDown => Some (1, 0)
  | _ => None
  end.

Definition click_turn (click : option Button) (s : SessionState)
  : SessionState :=
  match click_direction click with
  | Some d => handle_direction d s
  | None => s
  end.

(** ** Shapes of headings and bodies *)

(** One of the four directions the buttons pass to [handle_direction]. *)
Definition unit_dir (d : Cell) : bool :=
  cell_eqb d (-1, 0) || cell_eqb d (0, -1) || cell_eqb d (0, 1) ||
  cell_eqb d (1, 0).

(** The step from cell [b] to cell [a]. *)
Definition step_of (a b : Cell) : Cell := (fst a - fst b, snd a - snd b).

(** Every cell of the body is one step away from the next. *)
Fixpoint chained (body : list Cell) : Prop :=
  match body with
  | a :: (b :: _) as rest => unit_dir (step_of a b) = true /\ chained rest
  | _ => True
  end.

(** No cell occurs twice in [l], as a test. *)
Fixpoint distinct (l : list Cell) : bool :=
  match l with
  | [] => true
  | c :: rest => negb (cell_in c rest) && distinct rest
  end.

(** While playing, the heading is the step the head made last. *)
Definition heading_follows (s : SessionState) : Prop :=
  phase_of s = PLAYING ->
  forall h n rest, snake s = h :: n :: rest -> direction s = step_of h n.

(** The level the speed has at a given score. *)
Definition level_of_score (n : Z) : nat := Z.to_nat (Z.min (n / 5) 28).

(** Every level below the last is above 0.05: the guard lets it speed up. *)
Definition levels_above_guard : bool :=
  forallb (fun k => PrimFloat.ltb 0.05%float (level k)) (seq 0 MAX_LEVEL).

(** The cell at row [x], column [y] is element [x * N + y] of [all_cells]. *)
Definition all_cells_indexed : bool :=
  forallb (fun c => match nth_error all_cells
                            (Z.to_nat (fst c * GRID_SIZE + snd c)) with
                    | Some c' => cell_eqb c c'
                    | None => false
                    end)
          all_cells.

(** ** The concrete sources and runs used as test inputs *)

(** A source that runs through the grid row by row, again and again. *)
Definition rng_cycle (i : nat) : Z * Z := (Z.of_nat i / GRID_SIZE, Z.of_nat i).

(** A source that hands out the cells of the boustrophedon path through the
    grid: row 0 left to right, row 1 right to left, and so on. *)
Definition serp_cell (i : nat) : Cell :=
  let r := (i / 20)%nat in
  let c := (i mod 20)%nat in
  (Z.of_nat r, Z.of_nat (if Nat.even r then c else 19 - c)%nat).

Definition rng_serp (i : nat) : Z * Z := serp_cell (i mod 400).

(** The direction from the [j]-th cell of the path to the next. *)
Definition serp_dir (j : nat) : Cell :=
  (fst (serp_cell (S j)) - fst (serp_cell j),
   snd (serp_cell (S j)) - snd (serp_cell j)).

(** From the centre to the corner (0,0) without touching the food at (0,1):
    up to row 1, left to column 0, up to row 0. *)
Definition travel : list Event :=
  Turn (-1, 0) :: repeat Tick 9 ++ Turn (0, -1) :: repeat Tick 10 ++
  [Turn (-1, 0); Tick].

(** The travel, then [n] steps along the path, the food always one step
    ahead. *)
Definition play (n : nat) : list Event :=
  travel ++ flat_map (fun j => [Turn (serp_dir j); Tick]) (seq 0 n).

(** The session after [initialize_game_state] and the start button. *)
Definition started : result SessionState :=
  match initialize_game_state rng_serp 1 None 0 with
  | Done s => reset_game rng_serp 1 s
  | IndexError => IndexError
  | Running => Running
  end.

(** The session after the start button and the events [es]. *)
Definition played (es : list Event) : result SessionState :=
  match started with
  | Done s => run_events rng_serp 1 es s
  | IndexError => IndexError
  | Running => Running
  end.

(** Runs of the script, one after the other, each after the click given
    (or none). *)
Fixpoint app_runs (rng : nat -> Z * Z) (fuel : nat)
  (clicks : list (option Button)) (s : SessionState) : result SessionState :=
  match clicks with
  | [] => Done s
  | click :: clicks' =>
      match app rng fuel click (Some s) (rand_state s) with
      | Done (s', _) => app_runs rng fuel clicks' s'
      | IndexError => IndexError
      | Running => Running
      end
  end.

(** The session after the first run of the page and the runs after
    [clicks]. *)
Definition browsed (clicks : list (option Button)) : result SessionState :=
  match app rng_serp 5 None None 0 with
  | Done (s, _) => app_runs rng_serp 5 clicks s
  | IndexError => IndexError
  | Running => Running
  end.

(** Start, go up to row 0, go left and bite the food on (0,1). *)
Definition bite_clicks : list (option Button) :=
  Some StartGame :: Some ButtonUp :: repeat None 9 ++
  Some ButtonLeft :: repeat None 8.

(** The scenarios of the specification, as playing sessions. *)
Definition scenario1 : SessionState :=
  mkSession [(10, 10)] (0, 1) (3, 3) 0 false true INITIAL_SPEED 0.

Definition scenario2 : SessionState :=
  mkSession [(5, 5)] (0, 1) (5, 6) 4 false true INITIAL_SPEED 0.

Definition scenario3 : SessionState :=
  mkSession [(0, 0)] (-1, 0) (7, 7) 0 false true INITIAL_SPEED 0.

Definition scenario4 : SessionState :=
  mkSession [(3, 3); (3, 4); (3, 5)] (0, 1) (7, 7) 2 false true INITIAL_SPEED 0.

(** A paused session and a finished one. *)
Definition paused_session : SessionState :=
  mkSession [(5, 6); (5, 5)] (0, 1) (8, 8) 1 false false INITIAL_SPEED 3.

Definition finished_session : SessionState :=
  mkSession [(0, 0)] (-1, 0) (7, 7) 0 true false INITIAL_SPEED 0.

(** The session in which the snake lies on the first 399 cells of the path,
    head on (19,1) and heading left, the food on the last free cell (19,0). *)
Definition full_session : SessionState :=
  mkSession (rev (map serp_cell (seq 0 399))) (0, -1) (19, 0) 398 false true
            (level 28) 400.

(** * Basic facts *)

Lemma Done_inj {A : Type} (a b : A) : Done a = Done b -> a = b.
Proof. intros H. congruence. Qed.

Lemma cell_eqb_eq (a b : Cell) : cell_eqb a b = true <-> a = b.
Proof.
  destruct a as [a1 a2], b as [b1 b2]; unfold cell_eqb; simpl.
  rewrite andb_true_iff, !Z.eqb_eq. split.
  - intros [-> ->]; reflexivity.
  - intros H; inversion H; auto.
Qed.

Lemma cell_eqb_refl (a : Cell) : cell_eqb a a = true.
Proof. apply cell_eqb_eq; reflexivity. Qed.

Lemma cell_eqb_neq (a b : Cell) : cell_eqb a b = false <-> a <> b.
Proof.
  rewrite <- cell_eqb_eq. destruct (cell_eqb a b); split; congruence.
Qed.

Lemma cell_in_In (c : Cell) (l : list Cell) : cell_in c l = true <-> In c l.
Proof.
  unfold cell_in. rewrite existsb_exists. split.
  - intros [x [Hx He]]. apply cell_eqb_eq in He. subst; assumption.
  - intros H. exists c. split; [assumption | apply cell_eqb_refl].
Qed.

Lemma cell_in_not_In (c : Cell) (l : list Cell) : cell_in c l = false <-> ~ In c l.
Proof.
  rewrite <- cell_in_In. destruct (cell_in c l); split; congruence.
Qed.

Lemma randint_range (a b raw : Z) : a <= b -> a <= randint a b raw <= b.
Proof.
  intros H. unfold randint.
  pose proof (Z.mod_pos_bound raw (b - a + 1)). lia.
Qed.

Lemma draw_in_grid (rng : nat -> Z * Z) (i : nat) : in_grid (draw rng i).
Proof.
  unfold in_grid, draw. cbn [fst snd].
  pose proof (randint_range 0 (GRID_SIZE - 1) (fst (rng i))).
  pose proof (randint_range 0 (GRID_SIZE - 1) (snd (rng i))).
  unfold GRID_SIZE in *. lia.
Qed.

Lemma all_cells_in_grid (c : Cell) : In c all_cells <-> in_grid c.
Proof.
  unfold all_cells, in_grid. rewrite in_flat_map.
  change (Z.to_nat GRID_SIZE) with 20%nat. change GRID_SIZE with 20. split.
  - intros [x [Hx Hc]]. apply in_map_iff in Hc. destruct Hc as [y [<- Hy]].
    apply in_seq in Hx. apply in_seq in Hy. cbn [fst snd]. lia.
  - destruct c as [x y]; cbn [fst snd]. intros [Hx Hy].
    exists (Z.to_nat x). split.
    + apply in_seq. lia.
    + apply in_map_iff. exists (Z.to_nat y). split.
      * f_equal; lia.
      * apply in_seq. lia.
Qed.

Lemma all_cells_length : Z.of_nat (length all_cells) = GRID_SIZE * GRID_SIZE.
Proof. reflexivity. Qed.

Lemma filter_split_length {A : Type} (p : A -> bool) (l : list A) :
  (length (filter p l) + length (filter (fun x => negb (p x)) l) = length l)%nat.
Proof.
  induction l as [|a l IH]; simpl; [reflexivity|].
  destruct (p a); simpl; lia.
Qed.

(** A body that occupies fewer than N*N grid cells leaves a grid cell free. *)
Lemma free_cell_exists (body : list Cell) :
  Z.of_nat (length (occupied body)) < GRID_SIZE * GRID_SIZE ->
  exists c, in_grid c /\ ~ In c body.
Proof.
  intros H. rewrite <- all_cells_length in H. unfold occupied in H.
  pose proof (filter_split_length (fun c => cell_in c body) all_cells) as Hs.
  destruct (filter (fun x => negb (cell_in x body)) all_cells) as [|c l] eqn:E.
  - change (length (@nil Cell)) with 0%nat in Hs. lia.
  - assert (Hc : In c (filter (fun x => negb (cell_in x body)) all_cells))
      by (rewrite E; left; reflexivity).
    apply filter_In in Hc. destruct Hc as [Hg Hn].
    exists c. split.
    + apply all_cells_in_grid; assumption.
    + apply cell_in_not_In. apply negb_true_iff; assumption.
Qed.

Lemma board_full_covers (body : list Cell) (c : Cell) :
  board_full body = true -> in_grid c -> cell_in c body = true.
Proof.
  unfold board_full. rewrite forallb_forall. intros H Hc.
  apply H. apply all_cells_in_grid; assumption.
Qed.

(** * [place_food] *)

Section PlaceFood.

Variable rng : nat -> Z * Z.

(** What a returned cell is: the first draw from [pos] on that is not in the
    body; all earlier draws were rejected. *)
Lemma place_food_done (fuel pos : nat) (body : list Cell) (c : Cell) (pos' : nat) :
  place_food rng fuel pos body = Done (c, pos') ->
  (pos < pos')%nat /\ c = draw rng (pos' - 1) /\ ~ In c body /\
  (forall i, (pos <= i < pos' - 1)%nat -> In (draw rng i) body).
Proof.
  revert pos. induction fuel as [|fuel IH]; intros pos H; simpl in H.
  - discriminate.
  - destruct (cell_in (draw rng pos) body) eqn:E; simpl in H.
    + apply IH in H. destruct H as (Hlt & Hc & Hn & Hrej).
      repeat split; try assumption; try lia.
      intros i Hi. destruct (Nat.eq_dec i pos) as [->|Hne].
      * apply cell_in_In; assumption.
      * apply Hrej; lia.
    + inversion H; subst. replace (S pos - 1)%nat with pos by lia.
      repeat split; try lia.
      apply cell_in_not_In; assumption.
Qed.

Lemma place_food_no_error (fuel pos : nat) (body : list Cell) :
  place_food rng fuel pos body <> IndexError.
Proof.
  revert pos. induction fuel as [|fuel IH]; intros pos; simpl.
  - discriminate.
  - destruct (negb (cell_in (draw rng pos) body)); [discriminate | apply IH].
Qed.

(** More fuel does not change a result. *)
Lemma place_food_more_fuel (fuel fuel' pos : nat) (body : list Cell) (r : Cell * nat) :
  place_food rng fuel pos body = Done r -> (fuel <= fuel')%nat ->
  place_food rng fuel' pos body = Done r.
Proof.
  revert fuel' pos. induction fuel as [|fuel IH]; intros fuel' pos H Hle; simpl in H.
  - discriminate.
  - destruct fuel' as [|fuel']; [lia|]. simpl.
    destruct (negb (cell_in (draw rng pos) body)); [assumption|].
    apply IH; [assumption | lia].
Qed.

Lemma place_food_unique (fuel fuel' pos : nat) (body : list Cell) (r r' : Cell * nat) :
  place_food rng fuel pos body = Done r ->
  place_food rng fuel' pos body = Done r' -> r = r'.
Proof.
  intros H H'.
  apply place_food_more_fuel with (fuel' := Nat.max fuel fuel') in H; [|lia].
  apply place_food_more_fuel with (fuel' := Nat.max fuel fuel') in H'; [|lia].
  congruence.
Qed.

(** A free draw [k] iterations ahead ends the loop within [k + 1] iterations. *)
Lemma place_food_hits (k pos : nat) (body : list Cell) :
  ~ In (draw rng (pos + k)) body ->
  exists r, place_food rng (S k) pos body = Done r.
Proof.
  revert pos. induction k as [|k IH]; intros pos H.
  - rewrite Nat.add_0_r in H. apply cell_in_not_In in H.
    simpl. rewrite H. simpl. eexists; reflexivity.
  - change (place_food rng (S (S k)) pos body)
      with (if negb (cell_in (draw rng pos) body) then Done (draw rng pos, S pos)
            else place_food rng (S k) (S pos) body).
    destruct (negb (cell_in (draw rng pos) body)).
    + eexists; reflexivity.
    + apply IH. replace (S pos + k)%nat with (pos + S k)%nat by lia. assumption.
Qed.

(** On a full board every draw is rejected: the loop never ends. *)
Lemma place_food_full (fuel pos : nat) (body : list Cell) :
  board_full body = true -> place_food rng fuel pos body = Running.
Proof.
  intros Hfull. revert pos. induction fuel as [|fuel IH]; intros pos; simpl.
  - reflexivity.
  - rewrite (board_full_covers body (draw rng pos) Hfull (draw_in_grid rng pos)).
    simpl. apply IH.
Qed.

(** With a fair source and a free grid cell the loop ends. *)
Lemma place_food_terminates (pos : nat) (body : list Cell) :
  fair rng ->
  Z.of_nat (length (occupied body)) < GRID_SIZE * GRID_SIZE ->
  exists fuel r, place_food rng fuel pos body = Done r.
Proof.
  intros Hfair Hocc.
  destruct (free_cell_exists body Hocc) as [c [Hg Hn]].
  destruct (Hfair pos c Hg) as [k Hk].
  destruct (place_food_hits k pos body) as [r Hr].
  - rewrite Hk; assumption.
  - exists (S k), r; assumption.
Qed.

End PlaceFood.

(** The cycling source is fair. *)
Lemma rng_cycle_fair : fair rng_cycle.
Proof.
  intros p [x y] [Hx Hy]. cbn [fst snd] in Hx, Hy. unfold GRID_SIZE in Hx, Hy.
  set (n := 400 * (Z.of_nat p / 400 + 1) + 20 * x + y).
  assert (Hn : Z.of_nat p <= n).
  { unfold n. pose proof (Z.mod_pos_bound (Z.of_nat p) 400).
    pose proof (Z.div_mod (Z.of_nat p) 400). lia. }
  exists (Z.to_nat (n - Z.of_nat p)).
  unfold draw, rng_cycle, randint, GRID_SIZE. cbn [fst snd].
  replace (Z.of_nat (p + Z.to_nat (n - Z.of_nat p))) with n by lia.
  change (20 - 1 - 0 + 1) with 20.
  f_equal; unfold n; Z.div_mod_to_equations; lia.
Qed.

(** * Uniform draws *)

Lemma draw_rng_of_head (c : Cell) (ds : list Cell) :
  in_grid c -> draw (rng_of (c :: ds)) 0 = c.
Proof.
  destruct c as [x y]. intros [Hx Hy]. cbn [fst snd] in Hx, Hy.
  unfold draw, rng_of, randint, GRID_SIZE in *. cbn [nth fst snd].
  f_equal; rewrite Z.mod_small; lia.
Qed.

Lemma place_food_shift (c : Cell) (ds : list Cell) (body : list Cell) (fuel pos : nat) :
  match place_food (rng_of (c :: ds)) fuel (S pos) body with
  | Running => true | _ => false end =
  match place_food (rng_of ds) fuel pos body with
  | Running => true | _ => false end.
Proof.
  revert pos. induction fuel as [|fuel IH]; intros pos; [reflexivity|].
  cbn [place_food].
  change (draw (rng_of (c :: ds)) (S pos)) with (draw (rng_of ds) pos).
  destruct (negb (cell_in (draw (rng_of ds) pos) body)); [reflexivity | apply IH].
Qed.

Lemma still_running_cons (body : list Cell) (n : nat) (c : Cell) (ds : list Cell) :
  in_grid c ->
  still_running body (S n) (c :: ds) = cell_in c body && still_running body n ds.
Proof.
  intros Hc. unfold still_running. cbn [place_food].
  rewrite (draw_rng_of_head c ds Hc).
  destruct (cell_in c body); cbn [negb andb]; [apply place_food_shift | reflexivity].
Qed.

Lemma filter_map_cons_length {A : Type} (P : list A -> bool) (q : A -> bool)
  (R : list A -> bool) (c : A) (L : list (list A)) :
  (forall ds, P (c :: ds) = q c && R ds) ->
  length (filter P (map (cons c) L)) =
  if q c then length (filter R L) else 0%nat.
Proof.
  intros HP. induction L as [|ds L IH]; cbn [map filter].
  - destruct (q c); reflexivity.
  - rewrite HP. destruct (q c) eqn:Eq; cbn [andb].
    + destruct (R ds); cbn [length]; rewrite IH; reflexivity.
    + exact IH.
Qed.

Lemma filter_flat_map_cons_length {A : Type} (P : list A -> bool) (q : A -> bool)
  (R : list A -> bool) (cells : list A) (L : list (list A)) :
  (forall c ds, In c cells -> P (c :: ds) = q c && R ds) ->
  length (filter P (flat_map (fun c => map (cons c) L) cells)) =
  (length (filter q cells) * length (filter R L))%nat.
Proof.
  induction cells as [|c cells IH]; intros HP; [reflexivity|].
  cbn [flat_map filter]. rewrite filter_app, length_app.
  rewrite (filter_map_cons_length P q R c L) by (intros ds; apply HP; left; reflexivity).
  rewrite IH by (intros c' ds Hc'; apply HP; right; exact Hc').
  destruct (q c); cbn [length]; lia.
Qed.

Lemma flat_map_cons_length {A : Type} (cells : list A) (L : list (list A)) :
  length (flat_map (fun c => map (cons c) L) cells) =
  (length cells * length L)%nat.
Proof.
  induction cells as [|c cells IH]; [reflexivity|].
  cbn [flat_map length]. rewrite length_app, length_map, IH. lia.
Qed.

(** Of the (N*N)^n sequences of [n] uniform draws, the ones that leave the
    loop of [place_food] running are the (number of occupied cells)^n
    sequences of occupied cells. *)
Lemma place_food_running_count (body : list Cell) (n : nat) :
  length (filter (still_running body n) (draw_sequences n)) =
  (length (occupied body) ^ n)%nat /\
  length (draw_sequences n) = (length all_cells ^ n)%nat.
Proof.
  induction n as [|n [IHr IHt]].
  - split; reflexivity.
  - split; cbn [draw_sequences].
    + rewrite (filter_flat_map_cons_length (still_running body (S n))
                 (fun c => cell_in c body) (still_running body n)).
      * rewrite IHr. unfold occupied. rewrite Nat.pow_succ_r'. reflexivity.
      * intros c ds Hc. apply still_running_cons. apply all_cells_in_grid. exact Hc.
    + rewrite flat_map_cons_length, IHt, Nat.pow_succ_r'. reflexivity.
Qed.

(** With a free grid cell, the sequences that leave the loop running are
    fewer than all sequences, for every positive number of draws. *)
Lemma place_food_running_fewer (body : list Cell) (n : nat) :
  Z.of_nat (length (occupied body)) < GRID_SIZE * GRID_SIZE ->
  n <> 0%nat ->
  (length (filter (still_running body n) (draw_sequences n))
   < length (draw_sequences n))%nat.
Proof.
  intros Hocc Hn. rewrite <- all_cells_length in Hocc.
  destruct (place_food_running_count body n) as [-> ->].
  apply Nat.pow_lt_mono_l; [exact Hn | lia].
Qed.

(** * Lists: dropping the tail *)

Lemma removelast_In {A : Type} (x : A) (l : list A) :
  In x (removelast l) -> In x l.
Proof.
  induction l as [|a l IH]; simpl; [tauto|].
  destruct l as [|b l]; [simpl; tauto|].
  intros [H|H]; [left; assumption | right; apply IH; assumption].
Qed.

Lemma removelast_NoDup {A : Type} (l : list A) :
  NoDup l -> NoDup (removelast l).
Proof.
  induction 1 as [|a l Hn Hd IH]; simpl; [constructor|].
  destruct l as [|b l]; [constructor|].
  constructor; [|assumption].
  intros H. apply Hn. apply removelast_In; assumption.
Qed.

Lemma removelast_cons_length {A : Type} (a : A) (l : list A) :
  length (removelast (a :: l)) = length l.
Proof.
  revert a. induction l as [|b l IH]; intros a; [reflexivity|].
  change (removelast (a :: b :: l)) with (a :: removelast (b :: l)).
  change (length (a :: removelast (b :: l))) with (S (length (removelast (b :: l)))).
  rewrite IH. reflexivity.
Qed.

Lemma removelast_cons_cons {A : Type} (a b : A) (l : list A) :
  removelast (a :: b :: l) = a :: removelast (b :: l).
Proof. reflexivity. Qed.

(** * Phases and the collision test *)

Lemma phase_playing (s : SessionState) :
  phase_of s = PLAYING <-> is_playing s = true /\ game_over s = false.
Proof.
  unfold phase_of. destruct (game_over s), (is_playing s); split;
    intros H; try discriminate; try tauto; destruct H; discriminate.
Qed.

Lemma phase_game_over (s : SessionState) :
  phase_of s = GAME_OVER <-> game_over s = true.
Proof.
  unfold phase_of. destruct (game_over s), (is_playing s); split;
    intros H; try discriminate; reflexivity.
Qed.

Lemma collides_spec (c : Cell) (body : list Cell) :
  collides c body = true <->
  (fst c < 0 \/ fst c >= GRID_SIZE \/ snd c < 0 \/ snd c >= GRID_SIZE) \/ In c body.
Proof.
  unfold collides. rewrite !orb_true_iff, cell_in_In.
  rewrite !Z.ltb_lt, !Z.geb_le. intuition lia.
Qed.

Lemma collides_free (c : Cell) (body : list Cell) :
  in_grid c -> ~ In c body -> collides c body = false.
Proof.
  intros [Hx Hy] Hn. destruct (collides c body) eqn:E; [|reflexivity].
  apply collides_spec in E. destruct E as [E|E]; [lia | contradiction].
Qed.

Section Calls.

Variable rng : nat -> Z * Z.

Lemma tick_playing (fuel : nat) (s : SessionState) :
  phase_of s = PLAYING -> tick rng fuel s = move_snake_logic rng fuel s.
Proof.
  intros H. apply phase_playing in H. destruct H as [Hp Hg].
  unfold tick. rewrite Hp, Hg. reflexivity.
Qed.

Lemma tick_not_playing (fuel : nat) (s : SessionState) :
  phase_of s <> PLAYING -> tick rng fuel s = Done s.
Proof.
  intros H. unfold tick, phase_of in *.
  destruct (game_over s), (is_playing s); simpl; try reflexivity.
  exfalso; apply H; reflexivity.
Qed.

(** The three ways a tick of a playing session goes. *)
Lemma move_collision (fuel : nat) (s : SessionState) (head : Cell) (rest : list Cell) :
  snake s = head :: rest ->
  collides (new_head_of s head) (snake s) = true ->
  move_snake_logic rng fuel s = Done (set_flags true false s).
Proof.
  intros Hs Hc. unfold move_snake_logic. rewrite Hs in *. cbv zeta.
  rewrite Hc. reflexivity.
Qed.

Lemma move_plain (fuel : nat) (s : SessionState) (head : Cell) (rest : list Cell) :
  snake s = head :: rest ->
  collides (new_head_of s head) (snake s) = false ->
  cell_eqb (new_head_of s head) (food s) = false ->
  move_snake_logic rng fuel s =
  Done (set_snake (removelast (new_head_of s head :: snake s)) s).
Proof.
  intros Hs Hc Hf. unfold move_snake_logic. rewrite Hs in *. cbv zeta.
  rewrite Hc, Hf. reflexivity.
Qed.

Lemma move_eat (fuel : nat) (s : SessionState) (head : Cell) (rest : list Cell) :
  snake s = head :: rest ->
  collides (new_head_of s head) (snake s) = false ->
  cell_eqb (new_head_of s head) (food s) = true ->
  move_snake_logic rng fuel s =
  match place_food rng fuel (rand_state s) (new_head_of s head :: snake s) with
  | Done (f, cursor') =>
      Done (mkSession (new_head_of s head :: snake s) (direction s) f
                      (score s + 1) (game_over s) (is_playing s)
                      (speed_up (score s + 1) (speed s)) cursor')
  | IndexError => IndexError
  | Running => Running
  end.
Proof.
  intros Hs Hc Hf. unfold move_snake_logic. rewrite Hs in *. cbv zeta.
  rewrite Hc, Hf. reflexivity.
Qed.

End Calls.

(** * [handle_direction] *)

(** A turn either does nothing or assigns the direction. *)
Lemma handle_direction_cases (d : Cell) (s : SessionState) :
  handle_direction d s = s \/ handle_direction d s = set_direction d s.
Proof.
  unfold handle_direction. destruct (game_over s); [left; reflexivity|].
  destruct (direction s) as [cx cy], d as [nx ny].
  destruct (negb (cell_eqb (nx, ny) (- cx, - cy)));
    [right | left]; reflexivity.
Qed.

Lemma handle_direction_snake (d : Cell) (s : SessionState) :
  snake (handle_direction d s) = snake s.
Proof. destruct (handle_direction_cases d s) as [-> | ->]; reflexivity. Qed.

Lemma handle_direction_food (d : Cell) (s : SessionState) :
  food (handle_direction d s) = food s.
Proof. destruct (handle_direction_cases d s) as [-> | ->]; reflexivity. Qed.

Lemma handle_direction_score (d : Cell) (s : SessionState) :
  score (handle_direction d s) = score s.
Proof. destruct (handle_direction_cases d s) as [-> | ->]; reflexivity. Qed.

Lemma handle_direction_speed (d : Cell) (s : SessionState) :
  speed (handle_direction d s) = speed s.
Proof. destruct (handle_direction_cases d s) as [-> | ->]; reflexivity. Qed.

(** C5: in the GAME_OVER phase [turn d] leaves the state as it is; otherwise
    the heading stays when [d] is the component-wise negation of the current
    heading, and becomes [d] in every other case. *)
Theorem handle_direction_spec (d : Cell) (s : SessionState) :
  (phase_of s = GAME_OVER -> handle_direction d s = s) /\
  (phase_of s <> GAME_OVER ->
   d = (- fst (direction s), - snd (direction s)) ->
   direction (handle_direction d s) = direction s) /\
  (phase_of s <> GAME_OVER ->
   d <> (- fst (direction s), - snd (direction s)) ->
   direction (handle_direction d s) = d).
Proof.
  unfold handle_direction. rewrite phase_game_over.
  destruct (direction s) as [cx cy] eqn:Hd. destruct d as [nx ny].
  cbn [fst snd]. repeat split.
  - intros ->. reflexivity.
  - intros Hg Hrev. destruct (game_over s); [assumption|].
    apply cell_eqb_eq in Hrev. rewrite Hrev. simpl. assumption.
  - intros Hg Hrev. destruct (game_over s); [congruence|].
    apply cell_eqb_neq in Hrev. rewrite Hrev. reflexivity.
Qed.

Lemma handle_direction_spec_witness :
  handle_direction (0, -1) finished_session = finished_session /\
  direction (handle_direction (0, -1) scenario1) = (0, 1) /\
  direction (handle_direction (-1, 0) scenario1) = (-1, 0).
Proof.
  split; [|split].
  - apply (proj1 (handle_direction_spec (0, -1) finished_session)). reflexivity.
  - apply (proj1 (proj2 (handle_direction_spec (0, -1) scenario1)));
      [discriminate | reflexivity].
  - apply (proj2 (proj2 (handle_direction_spec (-1, 0) scenario1)));
      discriminate.
Defined.

(** C10: [turn] changes the heading at most: body, food, score, speed, the
    two phase flags and the random cursor are what they were. *)
Theorem handle_direction_frame (d : Cell) (s : SessionState) :
  snake (handle_direction d s) = snake s /\
  food (handle_direction d s) = food s /\
  score (handle_direction d s) = score s /\
  speed (handle_direction d s) = speed s /\
  game_over (handle_direction d s) = game_over s /\
  is_playing (handle_direction d s) = is_playing s /\
  rand_state (handle_direction d s) = rand_state s.
Proof.
  destruct (handle_direction_cases d s) as [H | H]; rewrite H.
  - repeat split.
  - unfold set_direction. cbn [snake food score speed game_over is_playing rand_state].
    repeat split.
Qed.

(** * [tick] *)

(** C7: outside the PLAYING phase (ready, paused or game over) the game loop
    does not call [move_snake_logic]: the state stays exactly as it is. *)
Theorem tick_outside_playing (rng : nat -> Z * Z) (fuel : nat) (s : SessionState) :
  phase_of s <> PLAYING -> tick rng fuel s = Done s.
Proof.
  intros H. destruct (phase_of s) eqn:E.
  - apply tick_not_playing. congruence.
  - contradiction.
  - apply tick_not_playing. congruence.
Qed.

Lemma tick_outside_playing_witness :
  tick rng_cycle 5 paused_session = Done paused_session /\
  tick rng_cycle 5 finished_session = Done finished_session.
Proof.
  split.
  - apply (tick_outside_playing rng_cycle 5 paused_session). discriminate.
  - apply (tick_outside_playing rng_cycle 5 finished_session). discriminate.
Defined.

(** The gate is the loop's: [move_snake_logic] itself, called on a paused
    session, would move the snake. *)
Lemma move_snake_logic_ungated :
  move_snake_logic rng_cycle 5 paused_session
  = Done (set_snake [(5, 7); (5, 6)] paused_session).
Proof. reflexivity. Qed.

(** C2: a playing session whose new head [head + heading] leaves the grid or
    lies in the body ends: the phase becomes GAME_OVER, and body, food and
    score stay as they were. *)
Theorem tick_collision (rng : nat -> Z * Z) (fuel : nat) (s : SessionState)
  (head : Cell) (rest : list Cell) :
  phase_of s = PLAYING ->
  snake s = head :: rest ->
  (fst (new_head_of s head) < 0 \/ fst (new_head_of s head) >= GRID_SIZE \/
   snd (new_head_of s head) < 0 \/ snd (new_head_of s head) >= GRID_SIZE) \/
  In (new_head_of s head) (snake s) ->
  exists s', tick rng fuel s = Done s' /\
             phase_of s' = GAME_OVER /\
             snake s' = snake s /\ food s' = food s /\ score s' = score s.
Proof.
  intros Hp Hs Hc. exists (set_flags true false s).
  rewrite (tick_playing rng fuel s Hp).
  split; [|repeat split].
  apply (move_collision rng fuel s head rest Hs).
  apply collides_spec; assumption.
Qed.

Lemma tick_collision_witness :
  (exists s', tick rng_cycle 5 scenario3 = Done s' /\
              phase_of s' = GAME_OVER /\
              snake s' = [(0, 0)] /\ food s' = (7, 7) /\ score s' = 0) /\
  (exists s', tick rng_cycle 5 scenario4 = Done s' /\
              phase_of s' = GAME_OVER /\
              snake s' = [(3, 3); (3, 4); (3, 5)] /\ food s' = (7, 7) /\
              score s' = 2).
Proof.
  split.
  - apply (tick_collision rng_cycle 5 scenario3 (0, 0) []).
    + reflexivity.
    + reflexivity.
    + left. left. vm_compute. reflexivity.
  - apply (tick_collision rng_cycle 5 scenario4 (3, 3) [(3, 4); (3, 5)]).
    + reflexivity.
    + reflexivity.
    + right. right. left. reflexivity.
Defined.

(** A call other than [reset] never shortens the body. *)
Lemma run_event_length (rng : nat -> Z * Z) (fuel : nat) (e : Event)
  (s s' : SessionState) :
  no_reset e = true -> run_event rng fuel e s = Done s' ->
  (length (snake s) <= length (snake s'))%nat.
Proof.
  intros Hn H. destruct e as [d| | |]; try discriminate Hn; cbn [run_event] in H.
  - injection H as <-.
    rewrite handle_direction_snake. apply Nat.le_refl.
  - unfold tick in H.
    destruct (is_playing s && negb (game_over s));
      [|inversion H; subst; apply Nat.le_refl].
    unfold move_snake_logic in H.
    destruct (snake s) as [|head rest] eqn:Hs; [discriminate|].
    cbv zeta in H.
    destruct (collides (new_head_of s head) (head :: rest)).
    + inversion H; subst. simpl. rewrite Hs. apply Nat.le_refl.
    + destruct (cell_eqb (new_head_of s head) (food s)).
      * destruct (place_food rng fuel (rand_state s)
                    (new_head_of s head :: head :: rest)) as [[f c]| |];
          try discriminate.
        inversion H; subst. simpl. lia.
      * apply Done_inj in H. subst s'. unfold set_snake. cbn [snake].
        rewrite removelast_cons_length. apply Nat.le_refl.
  - inversion H; subst. unfold pause.
    destruct (is_playing s); simpl; apply Nat.le_refl.
Qed.

(** C4: a playing session whose new head is in the grid, not in the body and
    not the food cell moves: the new head is prepended and the last cell is
    dropped, so the length stays, and score and food stay; hence no tick
    (and no call other than [reset]) ever shortens the body. *)
Theorem tick_plain_move (rng : nat -> Z * Z) (fuel : nat) (s : SessionState) :
  (forall (head : Cell) (rest : list Cell),
     phase_of s = PLAYING ->
     snake s = head :: rest ->
     in_grid (new_head_of s head) ->
     ~ In (new_head_of s head) (snake s) ->
     new_head_of s head <> food s ->
     exists s', tick rng fuel s = Done s' /\
                snake s' = new_head_of s head :: removelast (snake s) /\
                length (snake s') = length (snake s) /\
                score s' = score s /\ food s' = food s) /\
  (forall s', tick rng fuel s = Done s' ->
              (length (snake s) <= length (snake s'))%nat) /\
  (forall e s', no_reset e = true -> run_event rng fuel e s = Done s' ->
                (length (snake s) <= length (snake s'))%nat).
Proof.
  split; [|split].
  - intros head rest Hp Hs Hg Hn Hf.
    exists (set_snake (removelast (new_head_of s head :: snake s)) s).
    rewrite (tick_playing rng fuel s Hp).
    split.
    + apply (move_plain rng fuel s head rest Hs).
      * apply collides_free; assumption.
      * apply cell_eqb_neq; assumption.
    + unfold set_snake; cbn [snake score food]. rewrite Hs.
      split; [apply removelast_cons_cons|].
      split; [apply removelast_cons_length|].
      split; reflexivity.
  - intros s' H. apply (run_event_length rng fuel Tick s s'); [reflexivity | exact H].
  - intros e s'. apply run_event_length.
Qed.

Lemma tick_plain_move_witness :
  (exists s', tick rng_cycle 5 scenario1 = Done s' /\
              snake s' = [(10, 11)] /\
              length (snake s') = 1%nat /\
              score s' = 0 /\ food s' = (3, 3)) /\
  (length (snake scenario2) <= 2)%nat.
Proof.
  split.
  - apply (proj1 (tick_plain_move rng_cycle 5 scenario1) (10, 10) []).
    + reflexivity.
    + reflexivity.
    + unfold in_grid, GRID_SIZE; simpl; lia.
    + simpl. intros [H|[]]. discriminate.
    + discriminate.
  - apply (proj1 (proj2 (tick_plain_move rng_cycle 5 scenario2))
             (mkSession [(5, 6); (5, 5)] (0, 1) (0, 0) 5 false true
                        (PrimFloat.mul INITIAL_SPEED 0.95%float) 1)).
    vm_compute. reflexivity.
Defined.

(** * Food placement, reset and eating *)

(** C8: when the body occupies fewer than N*N grid cells, [place_food]
    returns (given enough iterations of its loop, with a source that keeps
    producing every grid cell); the cell returned has both coordinates in
    [0, N), is not in the body, and is the first draw that is not in the
    body: every draw is a grid cell, and the draws before it were rejected
    because they lie in the body. *)
Theorem place_food_spec (rng : nat -> Z * Z) (pos : nat) (body : list Cell) :
  fair rng ->
  Z.of_nat (length (occupied body)) < GRID_SIZE * GRID_SIZE ->
  exists (fuel : nat) (c : Cell) (pos' : nat),
    (forall fuel', (fuel <= fuel')%nat ->
                   place_food rng fuel' pos body = Done (c, pos')) /\
    (0 <= fst c < GRID_SIZE /\ 0 <= snd c < GRID_SIZE) /\
    ~ In c body /\
    (pos < pos')%nat /\ c = draw rng (pos' - 1) /\
    (forall i, (pos <= i < pos' - 1)%nat -> In (draw rng i) body) /\
    (forall i, in_grid (draw rng i)).
Proof.
  intros Hfair Hocc.
  destruct (place_food_terminates rng pos body Hfair Hocc) as [fuel [[c pos'] H]].
  exists fuel, c, pos'.
  destruct (place_food_done rng fuel pos body c pos' H) as (Hlt & Hc & Hn & Hrej).
  split.
  - intros fuel' Hle. apply (place_food_more_fuel rng fuel fuel'); assumption.
  - split; [rewrite Hc; apply draw_in_grid|].
    repeat split; try assumption; apply draw_in_grid.
Qed.

Lemma place_food_spec_witness :
  exists (fuel : nat) (c : Cell) (pos' : nat),
    (forall fuel', (fuel <= fuel')%nat ->
                   place_food rng_cycle fuel' 210 [(10, 11); (10, 10)] = Done (c, pos')) /\
    (0 <= fst c < GRID_SIZE /\ 0 <= snd c < GRID_SIZE) /\
    ~ In c [(10, 11); (10, 10)] /\
    (210 < pos')%nat /\ c = draw rng_cycle (pos' - 1) /\
    (forall i, (210 <= i < pos' - 1)%nat -> In (draw rng_cycle i) [(10, 11); (10, 10)]) /\
    (forall i, in_grid (draw rng_cycle i)).
Proof.
  apply (place_food_spec rng_cycle 210 [(10, 11); (10, 10)]).
  - exact rng_cycle_fair.
  - vm_compute. reflexivity.
Defined.

(** C9: from any state, [reset] (with a source that keeps producing every
    grid cell) yields a session whose body is the single centre cell, whose
    heading is RIGHT, score 0, speed the initial speed, phase PLAYING, and
    whose food is a grid cell outside the body. *)
Theorem reset_game_spec (rng : nat -> Z * Z) (s : SessionState) :
  fair rng ->
  exists (fuel : nat) (s' : SessionState),
    (forall fuel', (fuel <= fuel')%nat -> reset_game rng fuel' s = Done s') /\
    snake s' = [(GRID_SIZE / 2, GRID_SIZE / 2)] /\
    direction s' = (0, 1) /\
    score s' = 0 /\
    speed s' = INITIAL_SPEED /\
    phase_of s' = PLAYING /\
    in_grid (food s') /\ ~ In (food s') (snake s').
Proof.
  intros Hfair.
  destruct (place_food_terminates rng (rand_state s)
              [(GRID_SIZE / 2, GRID_SIZE / 2)] Hfair) as [fuel [[f cur] H]].
  { vm_compute. reflexivity. }
  exists fuel.
  exists (mkSession [(GRID_SIZE / 2, GRID_SIZE / 2)] (0, 1) f 0 false true
                    INITIAL_SPEED cur).
  destruct (place_food_done rng fuel _ _ f cur H) as (Hlt & Hc & Hn & Hrej).
  split.
  - intros fuel' Hle. unfold reset_game. cbv zeta.
    rewrite (place_food_more_fuel rng fuel fuel' _ _ (f, cur) H Hle).
    reflexivity.
  - cbn [snake direction score speed food].
    repeat split; try assumption; rewrite Hc; apply draw_in_grid.
Qed.

Lemma reset_game_spec_witness :
  exists (fuel : nat) (s' : SessionState),
    (forall fuel', (fuel <= fuel')%nat ->
                   reset_game rng_cycle fuel' finished_session = Done s') /\
    snake s' = [(GRID_SIZE / 2, GRID_SIZE / 2)] /\
    direction s' = (0, 1) /\
    score s' = 0 /\
    speed s' = INITIAL_SPEED /\
    phase_of s' = PLAYING /\
    in_grid (food s') /\ ~ In (food s') (snake s').
Proof.
  apply (reset_game_spec rng_cycle finished_session). exact rng_cycle_fair.
Defined.

(** C3 (amended): a playing session whose new head is in the grid, not in the
    body and on the food cell, and whose body grown by the new head still
    leaves a grid cell free, eats (with a source that keeps producing every
    grid cell): the new head is prepended and no cell is dropped, so the
    length grows by one; the score grows by one; the new food is a grid cell
    outside the grown body; and the speed is multiplied by 0.95 exactly when
    the new score is a multiple of 5 and the speed is above 0.05. *)
Theorem tick_eats_food (rng : nat -> Z * Z) (s : SessionState)
  (head : Cell) (rest : list Cell) :
  fair rng ->
  phase_of s = PLAYING ->
  snake s = head :: rest ->
  in_grid (new_head_of s head) ->
  ~ In (new_head_of s head) (snake s) ->
  new_head_of s head = food s ->
  Z.of_nat (length (occupied (new_head_of s head :: snake s)))
    < GRID_SIZE * GRID_SIZE ->
  exists (fuel : nat) (s' : SessionState),
    (forall fuel', (fuel <= fuel')%nat -> tick rng fuel' s = Done s') /\
    snake s' = new_head_of s head :: snake s /\
    length (snake s') = S (length (snake s)) /\
    score s' = score s + 1 /\
    in_grid (food s') /\ ~ In (food s') (snake s') /\
    (score s' mod 5 = 0 /\ PrimFloat.ltb 0.05%float (speed s) = true ->
     speed s' = PrimFloat.mul (speed s) 0.95%float) /\
    (~ (score s' mod 5 = 0 /\ PrimFloat.ltb 0.05%float (speed s) = true) ->
     speed s' = speed s).
Proof.
  intros Hfair Hp Hs Hg Hn Hf Hocc.
  destruct (place_food_terminates rng (rand_state s)
              (new_head_of s head :: snake s) Hfair Hocc) as [fuel [[f cur] H]].
  destruct (place_food_done rng fuel _ _ f cur H) as (Hlt & Hc & Hnf & Hrej).
  exists fuel.
  exists (mkSession (new_head_of s head :: snake s) (direction s) f
                    (score s + 1) (game_over s) (is_playing s)
                    (speed_up (score s + 1) (speed s)) cur).
  split.
  - intros fuel' Hle. rewrite (tick_playing rng fuel' s Hp).
    rewrite (move_eat rng fuel' s head rest Hs).
    + rewrite (place_food_more_fuel rng fuel fuel' _ _ (f, cur) H Hle).
      reflexivity.
    + apply collides_free; assumption.
    + apply cell_eqb_eq; assumption.
  - cbn [snake score food speed].
    split; [reflexivity|]. split; [reflexivity|]. split; [reflexivity|].
    split; [rewrite Hc; apply draw_in_grid|]. split; [assumption|].
    unfold speed_up. split.
    + intros [Hm Hv]. apply Z.eqb_eq in Hm. rewrite Hm, Hv. reflexivity.
    + intros Hnot.
      destruct ((score s + 1) mod 5 =? 0) eqn:Em; [|reflexivity].
      destruct (PrimFloat.ltb 0.05%float (speed s)) eqn:Ev; [|reflexivity].
      exfalso. apply Hnot. split; [apply Z.eqb_eq; assumption | reflexivity].
Qed.

Lemma tick_eats_food_witness :
  exists (fuel : nat) (s' : SessionState),
    (forall fuel', (fuel <= fuel')%nat -> tick rng_cycle fuel' scenario2 = Done s') /\
    snake s' = [(5, 6); (5, 5)] /\
    length (snake s') = 2%nat /\
    score s' = 5 /\
    in_grid (food s') /\ ~ In (food s') (snake s') /\
    (score s' mod 5 = 0 /\ PrimFloat.ltb 0.05%float (speed scenario2) = true ->
     speed s' = PrimFloat.mul (speed scenario2) 0.95%float) /\
    (~ (score s' mod 5 = 0 /\ PrimFloat.ltb 0.05%float (speed scenario2) = true) ->
     speed s' = speed scenario2).
Proof.
  apply (tick_eats_food rng_cycle scenario2 (5, 5) []).
  - exact rng_cycle_fair.
  - reflexivity.
  - reflexivity.
  - unfold in_grid, GRID_SIZE; simpl; lia.
  - simpl. intros [H|[]]. discriminate.
  - reflexivity.
  - vm_compute. reflexivity.
Defined.

(** The tick of a session that eats onto a full board never returns. *)
Lemma tick_full_board (rng : nat -> Z * Z) (fuel : nat) (s : SessionState)
  (head : Cell) (rest : list Cell) :
  phase_of s = PLAYING ->
  snake s = head :: rest ->
  collides (new_head_of s head) (snake s) = false ->
  cell_eqb (new_head_of s head) (food s) = true ->
  board_full (new_head_of s head :: snake s) = true ->
  tick rng fuel s = Running.
Proof.
  intros Hp Hs Hc Hf Hfull.
  rewrite (tick_playing rng fuel s Hp).
  rewrite (move_eat rng fuel s head rest Hs Hc Hf).
  rewrite (place_food_full rng fuel (rand_state s) _ Hfull). reflexivity.
Qed.

(** C3, as stated, fails on the last free cell: [full_session] is what the
    start button and 398 bites on the path lead to; it is playing, its new
    head (19,0) is in the grid, not in the body and on the food; yet the
    grown body covers the grid, so whatever the source draws and however
    long the loop of [place_food] runs, the tick does not return and no new
    food is placed. *)
Lemma tick_eats_food_last_cell :
  played (play 398) = Done full_session /\
  phase_of full_session = PLAYING /\
  hd_error (snake full_session) = Some (19, 1) /\
  new_head_of full_session (19, 1) = (19, 0) /\
  in_grid (19, 0) /\
  ~ In (19, 0) (snake full_session) /\
  food full_session = (19, 0) /\
  length (snake full_session) = 399%nat /\
  (forall (rng : nat -> Z * Z) (fuel : nat),
     tick rng fuel full_session = Running).
Proof.
  split; [vm_compute; reflexivity|].
  split; [reflexivity|].
  split; [reflexivity|].
  split; [reflexivity|].
  split; [unfold in_grid, GRID_SIZE; simpl; lia|].
  split; [apply cell_in_not_In; vm_compute; reflexivity|].
  split; [reflexivity|].
  split; [reflexivity|].
  intros rng fuel.
  apply (tick_full_board rng fuel full_session (19, 1)
           (tl (snake full_session))).
  - reflexivity.
  - vm_compute. reflexivity.
  - vm_compute. reflexivity.
  - vm_compute. reflexivity.
  - vm_compute. reflexivity.
Qed.

(** * Reachable sessions *)

Section Reachable.

Variable rng : nat -> Z * Z.

(** What [initialize_game_state] and [reset_game] build: the one-cell snake,
    heading right, with the food [place_food] found for it. *)
Lemma initialize_game_state_done (fuel cursor : nat) (s : SessionState) :
  initialize_game_state rng fuel None cursor = Done s ->
  exists f cur,
    place_food rng fuel cursor [(GRID_SIZE / 2, GRID_SIZE / 2)] = Done (f, cur) /\
    s = mkSession [(GRID_SIZE / 2, GRID_SIZE / 2)] (0, 1) f 0 false false
                  INITIAL_SPEED cur.
Proof.
  unfold initialize_game_state. cbv zeta.
  destruct (place_food rng fuel cursor [(GRID_SIZE / 2, GRID_SIZE / 2)])
    as [[f cur]| |]; try discriminate.
  intros H. apply Done_inj in H. exists f, cur. split; [reflexivity | congruence].
Qed.

Lemma reset_game_done (fuel : nat) (s s' : SessionState) :
  reset_game rng fuel s = Done s' ->
  exists f cur,
    place_food rng fuel (rand_state s) [(GRID_SIZE / 2, GRID_SIZE / 2)]
      = Done (f, cur) /\
    s' = mkSession [(GRID_SIZE / 2, GRID_SIZE / 2)] (0, 1) f 0 false true
                   INITIAL_SPEED cur.
Proof.
  unfold reset_game. cbv zeta.
  destruct (place_food rng fuel (rand_state s) [(GRID_SIZE / 2, GRID_SIZE / 2)])
    as [[f cur]| |]; try discriminate.
  intros H. apply Done_inj in H. exists f, cur. split; [reflexivity | congruence].
Qed.

Lemma fresh_body (fuel cursor : nat) (f : Cell) (cur : nat) (playing : bool) :
  place_food rng fuel cursor [(GRID_SIZE / 2, GRID_SIZE / 2)] = Done (f, cur) ->
  NoDup (snake (mkSession [(GRID_SIZE / 2, GRID_SIZE / 2)] (0, 1) f 0 false
                          playing INITIAL_SPEED cur)) /\
  ~ In (food (mkSession [(GRID_SIZE / 2, GRID_SIZE / 2)] (0, 1) f 0 false
                        playing INITIAL_SPEED cur))
       (snake (mkSession [(GRID_SIZE / 2, GRID_SIZE / 2)] (0, 1) f 0 false
                         playing INITIAL_SPEED cur)).
Proof.
  intros E. cbn [snake food].
  destruct (place_food_done rng fuel _ _ f cur E) as (_ & _ & Hn & _).
  split; [|assumption].
  constructor; [intros [] | constructor].
Qed.

Lemma initialize_game_state_body (fuel cursor : nat) (s : SessionState) :
  initialize_game_state rng fuel None cursor = Done s ->
  NoDup (snake s) /\ ~ In (food s) (snake s).
Proof.
  intros H. destruct (initialize_game_state_done fuel cursor s H) as (f & cur & E & ->).
  apply (fresh_body fuel cursor f cur false E).
Qed.

Lemma reset_game_body (fuel : nat) (s s' : SessionState) :
  reset_game rng fuel s = Done s' ->
  NoDup (snake s') /\ ~ In (food s') (snake s').
Proof.
  intros H. destruct (reset_game_done fuel s s' H) as (f & cur & E & ->).
  apply (fresh_body fuel (rand_state s) f cur true E).
Qed.

Lemma move_snake_logic_body (fuel : nat) (s s' : SessionState) :
  NoDup (snake s) -> ~ In (food s) (snake s) ->
  move_snake_logic rng fuel s = Done s' ->
  NoDup (snake s') /\ ~ In (food s') (snake s').
Proof.
  intros Hd Hf H. unfold move_snake_logic in H.
  destruct (snake s) as [|head rest] eqn:Hs; [discriminate|].
  cbv zeta in H.
  destruct (collides (new_head_of s head) (head :: rest)) eqn:Ec.
  - apply Done_inj in H. subst s'. unfold set_flags; cbn [snake food].
    rewrite Hs. split; assumption.
  - assert (Hnew : ~ In (new_head_of s head) (head :: rest)).
    { intros Hin. assert (Hc : collides (new_head_of s head) (head :: rest) = true)
        by (apply collides_spec; right; assumption).
      congruence. }
    assert (Hgrown : NoDup (new_head_of s head :: head :: rest))
      by (constructor; assumption).
    destruct (cell_eqb (new_head_of s head) (food s)) eqn:Ef.
    + destruct (place_food rng fuel (rand_state s)
                  (new_head_of s head :: head :: rest)) as [[f cur]| |] eqn:E;
        try discriminate.
      apply Done_inj in H. subst s'. cbn [snake food].
      destruct (place_food_done rng fuel _ _ f cur E) as (_ & _ & Hn & _).
      split; assumption.
    + apply Done_inj in H. subst s'. unfold set_snake; cbn [snake food].
      split.
      * apply removelast_NoDup; assumption.
      * intros Hin. apply removelast_In in Hin. destruct Hin as [Heq|Hin].
        -- apply cell_eqb_neq in Ef. congruence.
        -- contradiction.
Qed.

Lemma run_event_body (fuel : nat) (e : Event) (s s' : SessionState) :
  NoDup (snake s) /\ ~ In (food s) (snake s) ->
  run_event rng fuel e s = Done s' ->
  NoDup (snake s') /\ ~ In (food s') (snake s').
Proof.
  intros [Hd Hf] H. destruct e as [d| | |]; cbn [run_event] in H.
  - apply Done_inj in H. subst s'.
    rewrite handle_direction_snake, handle_direction_food. split; assumption.
  - unfold tick in H. destruct (is_playing s && negb (game_over s)).
    + apply (move_snake_logic_body fuel s s'); assumption.
    + apply Done_inj in H. subst s'. split; assumption.
  - apply (reset_game_body fuel s s'). exact H.
  - apply Done_inj in H. subst s'. unfold pause.
    destruct (is_playing s); unfold set_flags; cbn [snake food];
      split; assumption.
Qed.

Lemma run_events_reachable (fuel : nat) (es : list Event) (s s' : SessionState) :
  reachable rng s -> run_events rng fuel es s = Done s' -> reachable rng s'.
Proof.
  revert s. induction es as [|e es IH]; intros s Hr H; cbn [run_events] in H.
  - apply Done_inj in H. subst s'. assumption.
  - destruct (run_event rng fuel e s) as [s1| |] eqn:E; try discriminate.
    apply (IH s1); [|assumption].
    apply (reachable_step rng fuel e s s1); assumption.
Qed.

End Reachable.

Lemma started_reachable (s : SessionState) :
  started = Done s -> reachable rng_serp s.
Proof.
  unfold started.
  destruct (initialize_game_state rng_serp 1 None 0) as [s0| |] eqn:E;
    try discriminate.
  intros H. apply (reachable_step rng_serp 1 Reset s0 s).
  - apply (reachable_init rng_serp 1 0). exact E.
  - exact H.
Qed.

Lemma played_reachable (es : list Event) (s : SessionState) :
  played es = Done s -> reachable rng_serp s.
Proof.
  unfold played. destruct started as [s0| |] eqn:E; try discriminate.
  intros H. apply (run_events_reachable rng_serp 1 es s0 s).
  - apply started_reachable. exact E.
  - exact H.
Qed.

(** C1: in every state reachable from the initial one by [turn], [tick],
    [reset] (and pause) calls, the body has no duplicate cell and the food is
    not in the body. *)
Theorem reachable_invariant (rng : nat -> Z * Z) (s : SessionState) :
  reachable rng s -> NoDup (snake s) /\ ~ In (food s) (snake s).
Proof.
  intros H. induction H as [fuel cursor s H | fuel e s s' Hr IH H].
  - exact (initialize_game_state_body rng fuel cursor s H).
  - exact (run_event_body rng fuel e s s' IH H).
Qed.

Lemma reachable_invariant_witness :
  exists s, played (play 140) = Done s /\
            length (snake s) = 141%nat /\
            NoDup (snake s) /\ ~ In (food s) (snake s).
Proof.
  eexists.
  split; [vm_compute; reflexivity|].
  split; [reflexivity|].
  apply (reachable_invariant rng_serp).
  apply (played_reachable (play 140)). vm_compute. reflexivity.
Defined.

(** * Score and speed *)

Lemma level_descends (k k' : nat) :
  (k <= k' <= MAX_LEVEL)%nat -> PrimFloat.leb (level k') (level k) = true.
Proof.
  intros Hk.
  assert (H : levels_descend = true) by (vm_compute; reflexivity).
  unfold levels_descend in H. rewrite forallb_forall in H.
  assert (Hin : In k (seq 0 (S MAX_LEVEL)))
    by (apply in_seq; unfold MAX_LEVEL in *; lia).
  apply H in Hin. rewrite forallb_forall in Hin.
  apply Hin. apply in_seq. unfold MAX_LEVEL in *. lia.
Qed.

Lemma level_above_floor (k : nat) :
  (k <= MAX_LEVEL)%nat -> PrimFloat.ltb SPEED_FLOOR (level k) = true.
Proof.
  intros Hk.
  assert (H : levels_above_floor = true) by (vm_compute; reflexivity).
  unfold levels_above_floor in H. rewrite forallb_forall in H.
  apply H. apply in_seq. unfold MAX_LEVEL in *. lia.
Qed.

(** At the last level the guard [speed > 0.05] is false. *)
Lemma level_last : PrimFloat.ltb 0.05%float (level MAX_LEVEL) = false.
Proof. vm_compute. reflexivity. Qed.

Lemma speed_up_level (new_score : Z) (k : nat) :
  (k <= MAX_LEVEL)%nat ->
  exists k', (k <= k' <= MAX_LEVEL)%nat /\ speed_up new_score (level k) = level k'.
Proof.
  intros Hk. unfold speed_up.
  destruct ((new_score mod 5 =? 0) && PrimFloat.ltb 0.05%float (level k)) eqn:E.
  - apply andb_true_iff in E. destruct E as [_ Ev].
    assert (Hne : k <> MAX_LEVEL).
    { intros ->. rewrite level_last in Ev. discriminate. }
    exists (S k). split; [lia | reflexivity].
  - exists k. split; [lia | reflexivity].
Qed.

Section Monotone.

Variable rng : nat -> Z * Z.

(** The state changed, speed and score did not. *)
Ltac same_rank k :=
  exists k; split;
  [ apply Nat.le_refl
  | split; [split; assumption | cbn [score]; apply Z.le_refl] ].

Lemma move_snake_logic_rank (fuel : nat) (s s' : SessionState) (k : nat) :
  speed_rank s k -> move_snake_logic rng fuel s = Done s' ->
  exists k', (k <= k')%nat /\ speed_rank s' k' /\ score s <= score s'.
Proof.
  intros [Hk Hv] H. unfold move_snake_logic in H.
  destruct (snake s) as [|head rest]; [discriminate|].
  cbv zeta in H.
  destruct (collides (new_head_of s head) (head :: rest)).
  - apply Done_inj in H. subst s'. same_rank k.
  - destruct (cell_eqb (new_head_of s head) (food s)).
    + destruct (place_food rng fuel (rand_state s)
                  (new_head_of s head :: head :: rest)) as [[f cur]| |];
        try discriminate.
      apply Done_inj in H. subst s'.
      destruct (speed_up_level (score s + 1) k Hk) as [k' [Hk' Hup]].
      exists k'. unfold speed_rank. cbn [speed score]. rewrite Hv, Hup.
      split; [lia|]. split; [split; [lia | reflexivity] | lia].
    + apply Done_inj in H. subst s'. same_rank k.
Qed.

Lemma run_event_rank (fuel : nat) (e : Event) (s s' : SessionState) (k : nat) :
  no_reset e = true -> speed_rank s k -> run_event rng fuel e s = Done s' ->
  exists k', (k <= k')%nat /\ speed_rank s' k' /\ score s <= score s'.
Proof.
  intros Hn [Hk Hv] H. destruct e as [d| | |]; try discriminate Hn;
    cbn [run_event] in H.
  - apply Done_inj in H. subst s'. exists k. unfold speed_rank.
    rewrite handle_direction_speed, handle_direction_score.
    split; [apply Nat.le_refl|]. split; [split; assumption | apply Z.le_refl].
  - unfold tick in H. destruct (is_playing s && negb (game_over s)).
    + apply (move_snake_logic_rank fuel s s' k); [split; assumption | exact H].
    + apply Done_inj in H. subst s'. same_rank k.
  - apply Done_inj in H. subst s'. unfold pause.
    destruct (is_playing s); same_rank k.
Qed.

Lemma run_events_rank (fuel : nat) (es : list Event) (s s' : SessionState) (k : nat) :
  forallb no_reset es = true -> speed_rank s k ->
  run_events rng fuel es s = Done s' ->
  exists k', (k <= k')%nat /\ speed_rank s' k' /\ score s <= score s'.
Proof.
  revert s k. induction es as [|e es IH]; intros s k Hn Hr H;
    cbn [run_events] in H.
  - apply Done_inj in H. subst s'. destruct Hr. same_rank k.
  - cbn [forallb] in Hn. apply andb_true_iff in Hn. destruct Hn as [He Hes].
    destruct (run_event rng fuel e s) as [s1| |] eqn:E; try discriminate.
    destruct (run_event_rank fuel e s s1 k He Hr E) as [k1 [Hk1 [Hr1 Hs1]]].
    destruct (IH s1 k1 Hes Hr1 H) as [k' [Hk' [Hr' Hs']]].
    exists k'. split; [lia|]. split; [exact Hr' | lia].
Qed.

Lemma reachable_rank (s : SessionState) :
  reachable rng s -> exists k, speed_rank s k.
Proof.
  induction 1 as [fuel cursor s H | fuel e s s' Hr [k IH] H].
  - destruct (initialize_game_state_done rng fuel cursor s H) as (f & cur & _ & ->).
    exists 0%nat. split; [apply Nat.le_0_l | reflexivity].
  - destruct (no_reset e) eqn:En.
    + destruct (run_event_rank fuel e s s' k En IH H) as [k' [_ [Hk' _]]].
      exists k'; assumption.
    + destruct e; try discriminate En.
      destruct (reset_game_done rng fuel s s' H) as (f & cur & _ & ->).
      exists 0%nat. split; [apply Nat.le_0_l | reflexivity].
Qed.

End Monotone.

(** C6 (amended): over every run of [turn] and [tick] calls (and pauses)
    without [reset], from any reachable state, the score does not decrease
    and the speed does not increase; the speed stays above 0.95 times 0.05,
    not above 0.05: the speed-up is skipped once the speed is at most 0.05,
    so the last speed-up takes the speed below 0.05. *)
Theorem score_speed_monotone (rng : nat -> Z * Z) (fuel : nat)
  (es : list Event) (s s' : SessionState) :
  reachable rng s ->
  forallb no_reset es = true ->
  run_events rng fuel es s = Done s' ->
  score s <= score s' /\
  PrimFloat.leb (speed s') (speed s) = true /\
  PrimFloat.ltb SPEED_FLOOR (speed s') = true.
Proof.
  intros Hreach Hn H.
  destruct (reachable_rank rng s Hreach) as [k Hr].
  destruct (run_events_rank rng fuel es s s' k Hn Hr H) as [k' [Hk [[Hk' Hv'] Hs]]].
  destruct Hr as [_ Hv]. rewrite Hv, Hv'.
  split; [assumption|]. split.
  - apply level_descends. lia.
  - apply level_above_floor. assumption.
Qed.

Lemma score_speed_monotone_witness :
  exists s s', played (play 3) = Done s /\
               run_events rng_serp 1 [Turn (0, 1); Tick; Tick; Tick; Pause] s = Done s' /\
               score s = 3 /\ score s' = 6 /\
               score s <= score s' /\
               PrimFloat.leb (speed s') (speed s) = true /\
               PrimFloat.ltb SPEED_FLOOR (speed s') = true.
Proof.
  eexists. eexists.
  split; [vm_compute; reflexivity|].
  split; [vm_compute; reflexivity|].
  split; [reflexivity|]. split; [reflexivity|].
  apply (score_speed_monotone rng_serp 1 [Turn (0, 1); Tick; Tick; Tick; Pause]).
  - apply (played_reachable (play 3)). vm_compute. reflexivity.
  - reflexivity.
  - vm_compute. reflexivity.
Defined.

(** C6, as stated, fails on the lower bound: after the start button, 140
    bites along the path (turns and ticks only) leave the score at 140 and
    the speed at [level 28], about 0.0476, which is below 0.05. *)
Lemma speed_below_minimum :
  exists s0 s,
    started = Done s0 /\
    reachable rng_serp s0 /\
    forallb no_reset (play 140) = true /\
    run_events rng_serp 1 (play 140) s0 = Done s /\
    score s = 140 /\
    speed s = level 28 /\
    PrimFloat.ltb (speed s) 0.05%float = true /\
    PrimFloat.leb 0.05%float (speed s) = false.
Proof.
  destruct started as [s0| |] eqn:E0;
    [|exfalso; revert E0; vm_compute; discriminate
     |exfalso; revert E0; vm_compute; discriminate].
  exists s0.
  pose proof (started_reachable s0 E0) as Hr.
  revert E0 Hr. vm_compute started. intros E0 Hr.
  apply Done_inj in E0. subst s0.
  eexists. split; [reflexivity|]. split; [exact Hr|].
  split; [vm_compute; reflexivity|].
  split; [vm_compute; reflexivity|].
  split; [reflexivity|].
  split; vm_compute; auto.
Qed.

(** * More on the calls of the engine *)

Lemma collides_false (c : Cell) (body : list Cell) :
  collides c body = false -> in_grid c /\ ~ In c body.
Proof.
  intros H. unfold collides in H. rewrite !orb_false_iff in H.
  destruct H as [[[[H1 H2] H3] H4] H5].
  apply Z.ltb_ge in H1, H3. rewrite Z.geb_leb in H2, H4.
  apply Z.leb_gt in H2, H4.
  split; [unfold in_grid; lia | apply cell_in_not_In; assumption].
Qed.

Section Inversion.

Variable rng : nat -> Z * Z.

(** A call of [move_snake_logic] that returns went one of three ways. *)
Lemma move_snake_logic_inv (fuel : nat) (s s' : SessionState) :
  move_snake_logic rng fuel s = Done s' ->
  exists head rest,
    snake s = head :: rest /\
    ((collides (new_head_of s head) (snake s) = true /\
      s' = set_flags true false s) \/
     (collides (new_head_of s head) (snake s) = false /\
      new_head_of s head = food s /\
      exists f cur,
        place_food rng fuel (rand_state s) (new_head_of s head :: snake s)
          = Done (f, cur) /\
        s' = mkSession (new_head_of s head :: snake s) (direction s) f
                       (score s + 1) (game_over s) (is_playing s)
                       (speed_up (score s + 1) (speed s)) cur) \/
     (collides (new_head_of s head) (snake s) = false /\
      new_head_of s head <> food s /\
      s' = set_snake (removelast (new_head_of s head :: snake s)) s)).
Proof.
  intros H. unfold move_snake_logic in H.
  destruct (snake s) as [|head rest] eqn:Hs; [discriminate|].
  exists head, rest. split; [reflexivity|]. cbv zeta in H.
  destruct (collides (new_head_of s head) (head :: rest)) eqn:Ec.
  - left. apply Done_inj in H. split; [reflexivity | congruence].
  - destruct (cell_eqb (new_head_of s head) (food s)) eqn:Ef.
    + right; left. apply cell_eqb_eq in Ef.
      destruct (place_food rng fuel (rand_state s)
                  (new_head_of s head :: head :: rest)) as [[f cur]| |];
        try discriminate.
      apply Done_inj in H. split; [reflexivity|]. split; [assumption|].
      exists f, cur. split; [reflexivity | congruence].
    + right; right. apply cell_eqb_neq in Ef. apply Done_inj in H.
      split; [reflexivity|]. split; [assumption | congruence].
Qed.

(** Induction over the reachable sessions, call by call. *)
Lemma reachable_calls (P : SessionState -> Prop) :
  (forall fuel cursor s,
     initialize_game_state rng fuel None cursor = Done s -> P s) ->
  (forall d s, P s -> P (handle_direction d s)) ->
  (forall fuel s s',
     P s -> phase_of s = PLAYING ->
     move_snake_logic rng fuel s = Done s' -> P s') ->
  (forall fuel s s', reset_game rng fuel s = Done s' -> P s') ->
  (forall s, P s -> is_playing s = true -> P (set_flags (game_over s) false s)) ->
  forall s, reachable rng s -> P s.
Proof.
  intros Hinit Hturn Hmove Hreset Hpause s H.
  induction H as [fuel cursor s H | fuel e s s' Hr IH H].
  - apply (Hinit fuel cursor). exact H.
  - destruct e as [d| | |]; cbn [run_event] in H.
    + apply Done_inj in H. subst s'. apply Hturn. exact IH.
    + unfold tick in H.
      destruct (is_playing s && negb (game_over s)) eqn:E.
      * apply (Hmove fuel s s' IH); [|exact H].
        apply andb_true_iff in E. destruct E as [Ep Eg].
        apply negb_true_iff in Eg. apply phase_playing. split; assumption.
      * apply Done_inj in H. subst s'. exact IH.
    + apply (Hreset fuel s). exact H.
    + apply Done_inj in H. subst s'. unfold pause.
      destruct (is_playing s) eqn:E; [apply Hpause; assumption | exact IH].
Qed.

End Inversion.

(** * The shape of a reachable session *)

Lemma removelast_Forall {A : Type} (P : A -> Prop) (l : list A) :
  Forall P l -> Forall P (removelast l).
Proof.
  intros H. apply Forall_forall. intros x Hx.
  apply removelast_In in Hx. revert x Hx. apply Forall_forall. exact H.
Qed.

Lemma centre_in_grid : in_grid (GRID_SIZE / 2, GRID_SIZE / 2).
Proof. unfold in_grid, GRID_SIZE. cbn. lia. Qed.

Section Shape.

Variable rng : nat -> Z * Z.

Lemma reachable_nodup (s : SessionState) :
  reachable rng s -> NoDup (snake s) /\ ~ In (food s) (snake s).
Proof.
  induction 1 as [fuel cursor s H | fuel e s s' Hr IH H].
  - exact (initialize_game_state_body rng fuel cursor s H).
  - exact (run_event_body rng fuel e s s' IH H).
Qed.

(** Cells in the grid, length and score in step, and no session both over
    and playing. *)
Lemma reachable_shape (s : SessionState) :
  reachable rng s ->
  Forall in_grid (snake s) /\ in_grid (food s) /\
  Z.of_nat (List.length (snake s)) = score s + 1 /\
  0 <= score s /\
  (game_over s = true -> is_playing s = false).
Proof.
  revert s.
  apply (reachable_calls rng
           (fun s => Forall in_grid (snake s) /\ in_grid (food s) /\
                     Z.of_nat (List.length (snake s)) = score s + 1 /\
                     0 <= score s /\
                     (game_over s = true -> is_playing s = false))).
  - intros fuel cursor s0 H.
    destruct (initialize_game_state_done rng fuel cursor s0 H) as (f & cur & E & ->).
    destruct (place_food_done rng fuel _ _ f cur E) as (_ & -> & _).
    cbn [snake food score game_over is_playing].
    split; [repeat constructor; apply centre_in_grid|].
    split; [apply draw_in_grid|]. split; [reflexivity|].
    split; [lia | discriminate].
  - intros d s0 (Hs & Hf & Hl & Hp & Hg).
    destruct (handle_direction_cases d s0) as [-> | ->];
      (split; [|split; [|split; [|split]]]; assumption).
  - intros fuel s0 s1 (Hs & Hf & Hl & Hp & Hg) _ H.
    destruct (move_snake_logic_inv rng fuel s0 s1 H)
      as (head & rest & Hsn & [[Hc ->] | [(Hc & Hfo & f & cur & E & ->)
                                         | (Hc & Hfo & ->)]]).
    + unfold set_flags; cbn [snake food score game_over is_playing].
      split; [|split; [|split; [|split]]]; try assumption. reflexivity.
    + apply collides_false in Hc. destruct Hc as [Hin _].
      destruct (place_food_done rng fuel _ _ f cur E) as (_ & -> & _).
      cbn [snake food score game_over is_playing].
      split; [constructor; assumption|].
      split; [apply draw_in_grid|].
      split; [cbn [List.length]; lia|].
      split; [lia | assumption].
    + apply collides_false in Hc. destruct Hc as [Hin _].
      unfold set_snake; cbn [snake food score game_over is_playing].
      split; [apply removelast_Forall; constructor; assumption|].
      split; [assumption|].
      split; [rewrite removelast_cons_length; assumption|].
      split; assumption.
  - intros fuel s0 s1 H.
    destruct (reset_game_done rng fuel s0 s1 H) as (f & cur & E & ->).
    destruct (place_food_done rng fuel _ _ f cur E) as (_ & -> & _).
    cbn [snake food score game_over is_playing].
    split; [repeat constructor; apply centre_in_grid|].
    split; [apply draw_in_grid|]. split; [reflexivity|].
    split; [lia | discriminate].
  - intros s0 (Hs & Hf & Hl & Hp & Hg) _.
    unfold set_flags; cbn [snake food score game_over is_playing].
    split; [|split; [|split; [|split]]]; try assumption. reflexivity.
Qed.

End Shape.

(** The cells of a session that is reachable lie in the grid, the food
    too; with no cell twice, the body never has more than N*N cells. *)
Theorem reachable_in_grid (rng : nat -> Z * Z) (s : SessionState) :
  reachable rng s ->
  (forall c, In c (snake s) -> in_grid c) /\
  in_grid (food s) /\
  Z.of_nat (List.length (snake s)) <= GRID_SIZE * GRID_SIZE.
Proof.
  intros H.
  destruct (reachable_shape rng s H) as (Hs & Hf & _).
  destruct (reachable_nodup rng s H) as [Hd _].
  rewrite Forall_forall in Hs.
  split; [exact Hs|]. split; [exact Hf|].
  rewrite <- all_cells_length. apply inj_le.
  apply NoDup_incl_length; [exact Hd|].
  intros c Hc. apply all_cells_in_grid. apply Hs. exact Hc.
Qed.

Lemma reachable_in_grid_witness :
  exists s, played (play 140) = Done s /\
            (forall c, In c (snake s) -> in_grid c) /\
            in_grid (food s) /\
            Z.of_nat (List.length (snake s)) <= GRID_SIZE * GRID_SIZE.
Proof.
  eexists. split; [vm_compute; reflexivity|].
  apply (reachable_in_grid rng_serp).
  apply (played_reachable (play 140)). vm_compute. reflexivity.
Defined.

(** The body of a reachable session has one cell more than the score: one
    cell to start with, one more for every bite.  So the score is never
    negative and never N*N or more. *)
Theorem reachable_length_score (rng : nat -> Z * Z) (s : SessionState) :
  reachable rng s ->
  Z.of_nat (List.length (snake s)) = score s + 1 /\
  0 <= score s < GRID_SIZE * GRID_SIZE.
Proof.
  intros H.
  destruct (reachable_shape rng s H) as (Hs & _ & Hl & Hp & _).
  destruct (reachable_nodup rng s H) as [Hd _].
  split; [exact Hl|].
  assert (Hle : Z.of_nat (List.length (snake s)) <= GRID_SIZE * GRID_SIZE).
  { rewrite <- all_cells_length. apply inj_le.
    apply NoDup_incl_length; [exact Hd|].
    intros c Hc. apply all_cells_in_grid.
    rewrite Forall_forall in Hs. apply Hs. exact Hc. }
  lia.
Qed.

Lemma reachable_length_score_witness :
  exists s, played (play 140) = Done s /\
            Z.of_nat (List.length (snake s)) = score s + 1 /\
            0 <= score s < GRID_SIZE * GRID_SIZE.
Proof.
  eexists. split; [vm_compute; reflexivity|].
  apply (reachable_length_score rng_serp).
  apply (played_reachable (play 140)). vm_compute. reflexivity.
Defined.

(** * The speed as a function of the score *)

Lemma level_above_guard (k : nat) :
  (k < MAX_LEVEL)%nat -> PrimFloat.ltb 0.05%float (level k) = true.
Proof.
  intros Hk.
  assert (H : levels_above_guard = true) by (vm_compute; reflexivity).
  unfold levels_above_guard in H. rewrite forallb_forall in H.
  apply H. apply in_seq. lia.
Qed.

(** One bite takes the speed of a score to the speed of the next score. *)
Lemma speed_up_next (n : Z) :
  0 <= n ->
  speed_up (n + 1) (level (level_of_score n)) = level (level_of_score (n + 1)).
Proof.
  intros Hn. unfold speed_up, level_of_score.
  destruct ((n + 1) mod 5 =? 0) eqn:Em; cbn [andb].
  - apply Z.eqb_eq in Em.
    assert (Hq : (n + 1) / 5 = n / 5 + 1) by (Z.div_mod_to_equations; lia).
    assert (H0 : 0 <= n / 5) by (Z.div_mod_to_equations; lia).
    rewrite Hq. destruct (Z_lt_le_dec (n / 5) 28) as [Hlt | Hge].
    + replace (Z.to_nat (Z.min (n / 5 + 1) 28))
        with (S (Z.to_nat (Z.min (n / 5) 28))) by lia.
      rewrite level_above_guard by (unfold MAX_LEVEL; lia). reflexivity.
    + replace (Z.min (n / 5 + 1) 28) with 28 by lia.
      replace (Z.min (n / 5) 28) with 28 by lia.
      change (Z.to_nat 28) with MAX_LEVEL. rewrite level_last. reflexivity.
  - apply Z.eqb_neq in Em.
    assert (Hq : (n + 1) / 5 = n / 5) by (Z.div_mod_to_equations; lia).
    rewrite Hq. reflexivity.
Qed.

(** In a reachable session the speed is fixed by the score: the initial
    speed multiplied by 0.95 once for every five points, 28 times at most. *)
Theorem reachable_speed_of_score (rng : nat -> Z * Z) (s : SessionState) :
  reachable rng s ->
  speed s = level (Z.to_nat (Z.min (score s / 5) 28)).
Proof.
  intros H.
  cut (0 <= score s /\ speed s = level (level_of_score (score s)));
    [intros [_ Hv]; exact Hv|].
  revert s H.
  apply (reachable_calls rng
           (fun s => 0 <= score s /\
                     speed s = level (level_of_score (score s)))).
  - intros fuel cursor s0 H.
    destruct (initialize_game_state_done rng fuel cursor s0 H) as (f & cur & _ & ->).
    split; [cbn; lia | reflexivity].
  - intros d s0 [Hp Hv].
    rewrite handle_direction_speed, handle_direction_score. split; assumption.
  - intros fuel s0 s1 [Hp Hv] _ H.
    destruct (move_snake_logic_inv rng fuel s0 s1 H)
      as (head & rest & Hsn & [[Hc ->] | [(Hc & Hfo & f & cur & E & ->)
                                         | (Hc & Hfo & ->)]]).
    + split; assumption.
    + cbn [score speed]. split; [lia|].
      rewrite Hv. apply speed_up_next. exact Hp.
    + split; assumption.
  - intros fuel s0 s1 H.
    destruct (reset_game_done rng fuel s0 s1 H) as (f & cur & _ & ->).
    split; [cbn; lia | reflexivity].
  - intros s0 [Hp Hv] _. split; assumption.
Qed.

Lemma reachable_speed_of_score_witness :
  exists s, played (play 140) = Done s /\
            score s = 140 /\
            speed s = level (Z.to_nat (Z.min (score s / 5) 28)).
Proof.
  eexists. split; [vm_compute; reflexivity|]. split; [reflexivity|].
  apply (reachable_speed_of_score rng_serp).
  apply (played_reachable (play 140)). vm_compute. reflexivity.
Defined.

(** * Game over, and the empty snake *)

(** Game over is final: in a reachable session that is over, a turn, a tick
    and a pause all leave the session exactly as it is; only [reset_game]
    leads on. *)
Theorem game_over_final (rng : nat -> Z * Z) (fuel : nat) (e : Event)
  (s : SessionState) :
  reachable rng s ->
  game_over s = true ->
  no_reset e = true ->
  run_event rng fuel e s = Done s.
Proof.
  intros Hr Hg Hn.
  destruct (reachable_shape rng s Hr) as (_ & _ & _ & _ & Hp).
  specialize (Hp Hg).
  destruct e as [d| | |]; try discriminate Hn; cbn [run_event].
  - unfold handle_direction. rewrite Hg. reflexivity.
  - unfold tick. rewrite Hp. reflexivity.
  - unfold pause. rewrite Hp. reflexivity.
Qed.

Lemma game_over_final_witness :
  exists s, played (Turn (-1, 0) :: repeat Tick 11) = Done s /\
            game_over s = true /\
            run_event rng_serp 3 (Turn (0, 1)) s = Done s /\
            run_event rng_serp 3 Tick s = Done s /\
            run_event rng_serp 3 Pause s = Done s.
Proof.
  eexists. split; [vm_compute; reflexivity|]. split; [reflexivity|].
  assert (Hr : reachable rng_serp
                 (mkSession [(0, 10)] (-1, 0) (0, 1) 0 true false
                            INITIAL_SPEED 2)).
  { apply (played_reachable (Turn (-1, 0) :: repeat Tick 11)).
    vm_compute. reflexivity. }
  split; [|split].
  - apply (game_over_final rng_serp 3 (Turn (0, 1)) _ Hr); reflexivity.
  - apply (game_over_final rng_serp 3 Tick _ Hr); reflexivity.
  - apply (game_over_final rng_serp 3 Pause _ Hr); reflexivity.
Defined.

(** [move_snake_logic] and [render_board] read [snake[0]] and raise
    [IndexError] on an empty snake; no reachable session has one, so from a
    reachable session a tick never raises and the board is always drawn. *)
Theorem no_index_error (rng : nat -> Z * Z) (fuel : nat) :
  (forall s, snake s = [] ->
             move_snake_logic rng fuel s = IndexError /\
             render_board s = IndexError) /\
  (forall s, reachable rng s ->
             tick rng fuel s <> IndexError /\
             exists board, render_board s = Done board).
Proof.
  split.
  - intros s Hs. unfold move_snake_logic, render_board, grid_html.
    rewrite Hs. split; reflexivity.
  - intros s Hr.
    destruct (reachable_shape rng s Hr) as (_ & _ & Hl & Hp & _).
    destruct (snake s) as [|head rest] eqn:Hs; [cbn in Hl; lia|].
    split.
    + unfold tick. destruct (is_playing s && negb (game_over s));
        [|discriminate].
      unfold move_snake_logic. rewrite Hs. cbv zeta.
      destruct (collides (new_head_of s head) (head :: rest)); [discriminate|].
      destruct (cell_eqb (new_head_of s head) (food s)); [|discriminate].
      destruct (place_food rng fuel (rand_state s)
                  (new_head_of s head :: head :: rest)) as [[f cur]| |] eqn:E;
        try discriminate.
      exfalso. exact (place_food_no_error rng fuel _ _ E).
    + unfold render_board, grid_html. rewrite Hs. eexists. reflexivity.
Qed.

Lemma no_index_error_witness :
  (move_snake_logic rng_cycle 5 (set_snake [] scenario1) = IndexError /\
   render_board (set_snake [] scenario1) = IndexError) /\
  exists s, played (play 3) = Done s /\
            tick rng_serp 5 s <> IndexError /\
            exists board, render_board s = Done board.
Proof.
  split.
  - apply (proj1 (no_index_error rng_cycle 5) (set_snake [] scenario1)).
    reflexivity.
  - eexists. split; [vm_compute; reflexivity|].
    apply (proj2 (no_index_error rng_serp 5)).
    apply (played_reachable (play 3)). vm_compute. reflexivity.
Defined.

(** * The board *)

Lemma distinct_NoDup (l : list Cell) : distinct l = true -> NoDup l.
Proof.
  induction l as [|c l IH]; cbn [distinct]; intros H; [constructor|].
  apply andb_true_iff in H. destruct H as [Hc Hl].
  apply negb_true_iff in Hc.
  constructor; [apply cell_in_not_In; assumption | apply IH; assumption].
Qed.

Lemma all_cells_NoDup : NoDup all_cells.
Proof. apply distinct_NoDup. vm_compute. reflexivity. Qed.

(** The loops of [render_board] run through the grid row by row. *)
Lemma tiles_all_cells (s : SessionState) (head : Cell) :
  tiles s head
  = map (fun c => tile_class (snake s) head (food s) (fst c) (snd c)) all_cells.
Proof.
  unfold tiles, all_cells, range.
  rewrite !flat_map_concat_map, concat_map, !map_map. reflexivity.
Qed.

Lemma all_cells_nth (x y : Z) :
  in_grid (x, y) ->
  nth_error all_cells (Z.to_nat (x * GRID_SIZE + y)) = Some (x, y).
Proof.
  intros Hg. apply all_cells_in_grid in Hg.
  assert (H : all_cells_indexed = true) by (vm_compute; reflexivity).
  unfold all_cells_indexed in H. rewrite forallb_forall in H.
  specialize (H (x, y) Hg). cbn [fst snd] in H.
  destruct (nth_error all_cells (Z.to_nat (x * GRID_SIZE + y))) as [c|];
    [|discriminate].
  apply cell_eqb_eq in H. rewrite <- H. reflexivity.
Qed.

(** The cells of a duplicate-free list inside [cells], counted in [cells]. *)
Lemma filter_members_length (cells l : list Cell) :
  NoDup cells -> NoDup l -> incl l cells ->
  List.length (filter (fun c => cell_in c l) cells) = List.length l.
Proof.
  intros Hc Hl Hincl. apply Permutation_length.
  apply NoDup_Permutation; [apply NoDup_filter; assumption | assumption |].
  intros c. rewrite filter_In, cell_in_In. split.
  - intros [_ H]; exact H.
  - intros H. split; [apply Hincl; exact H | exact H].
Qed.

Lemma count_class_map (cls : string) (f : Cell -> string) (cells : list Cell) :
  count_class cls (map f cells)
  = List.length (filter (fun c => String.eqb cls (f c)) cells).
Proof.
  unfold count_class. induction cells as [|c cells IH]; [reflexivity|].
  cbn [map filter]. destruct (String.eqb cls (f c)); cbn [List.length];
    rewrite IH; reflexivity.
Qed.

(** What the class of a tile says about its cell. *)
Lemma tile_class_head (body : list Cell) (head fd c : Cell) :
  String.eqb "tile snake-head" (tile_class body head fd (fst c) (snd c))
  = cell_in c [head].
Proof.
  change (cell_in c [head]) with (cell_eqb c head || false).
  unfold tile_class. rewrite <- surjective_pairing.
  destruct (cell_eqb c head), (cell_in c body), (cell_eqb c fd); reflexivity.
Qed.

Lemma tile_class_body (head : Cell) (rest : list Cell) (fd c : Cell) :
  ~ In head rest ->
  String.eqb "tile snake-body"
             (tile_class (head :: rest) head fd (fst c) (snd c))
  = cell_in c rest.
Proof.
  intros Hn. unfold tile_class. rewrite <- surjective_pairing.
  change (cell_in c (head :: rest)) with (cell_eqb c head || cell_in c rest).
  destruct (cell_eqb c head) eqn:Eh.
  - apply cell_eqb_eq in Eh. subst c.
    apply cell_in_not_In in Hn. rewrite Hn. reflexivity.
  - cbn [orb]. destruct (cell_in c rest), (cell_eqb c fd); reflexivity.
Qed.

Lemma tile_class_food (body : list Cell) (head fd c : Cell) :
  In head body -> ~ In fd body ->
  String.eqb "tile food" (tile_class body head fd (fst c) (snd c))
  = cell_in c [fd].
Proof.
  intros Hh Hf. unfold tile_class. rewrite <- surjective_pairing.
  change (cell_in c [fd]) with (cell_eqb c fd || false). rewrite orb_false_r.
  destruct (cell_eqb c fd) eqn:Ef.
  - apply cell_eqb_eq in Ef. subst c.
    assert (Eh : cell_eqb fd head = false).
    { apply cell_eqb_neq. intros ->. contradiction. }
    apply cell_in_not_In in Hf. rewrite Eh, Hf. reflexivity.
  - destruct (cell_eqb c head), (cell_in c body); reflexivity.
Qed.

Lemma tile_class_plain (body : list Cell) (head fd c : Cell) :
  In head body ->
  String.eqb "tile" (tile_class body head fd (fst c) (snd c))
  = negb (cell_in c (fd :: body)).
Proof.
  intros Hh. unfold tile_class. rewrite <- surjective_pairing.
  change (cell_in c (fd :: body)) with (cell_eqb c fd || cell_in c body).
  destruct (cell_eqb c head) eqn:Eh.
  - apply cell_eqb_eq in Eh. subst c.
    apply cell_in_In in Hh. rewrite Hh, orb_true_r. reflexivity.
  - destruct (cell_in c body), (cell_eqb c fd); reflexivity.
Qed.

(** The board of a reachable session has N*N tiles: one head tile, one
    body tile for every other cell of the snake, one food tile, and plain
    tiles for the rest.  The food is never hidden and no cell is lost. *)
Theorem board_census (rng : nat -> Z * Z) (s : SessionState) :
  reachable rng s ->
  exists head rest,
    snake s = head :: rest /\
    Z.of_nat (List.length (tiles s head)) = GRID_SIZE * GRID_SIZE /\
    count_class "tile snake-head" (tiles s head) = 1%nat /\
    count_class "tile snake-body" (tiles s head) = List.length rest /\
    count_class "tile food" (tiles s head) = 1%nat /\
    Z.of_nat (count_class "tile" (tiles s head))
      = GRID_SIZE * GRID_SIZE - Z.of_nat (List.length (snake s)) - 1.
Proof.
  intros Hr.
  destruct (reachable_shape rng s Hr) as (Hs & Hf & Hl & Hp & _).
  destruct (reachable_nodup rng s Hr) as [Hd Hfn].
  rewrite Forall_forall in Hs.
  destruct (snake s) as [|head rest] eqn:Esn; [cbn in Hl; lia|].
  exists head, rest. split; [reflexivity|].
  assert (Hhead : In head (head :: rest)) by (left; reflexivity).
  assert (Hnr : ~ In head rest) by (inversion Hd; assumption).
  assert (Hdr : NoDup rest) by (inversion Hd; assumption).
  rewrite tiles_all_cells, Esn.
  split; [rewrite length_map; apply all_cells_length|].
  rewrite !count_class_map.
  split; [|split; [|split]].
  - rewrite (filter_ext _ _ (tile_class_head (head :: rest) head (food s))).
    apply (filter_members_length all_cells [head] all_cells_NoDup).
    + repeat constructor. intros [].
    + intros c [<- | []]. apply all_cells_in_grid. apply Hs. exact Hhead.
  - rewrite (filter_ext _ _ (fun c => tile_class_body head rest (food s) c Hnr)).
    apply (filter_members_length all_cells rest all_cells_NoDup Hdr).
    intros c Hc. apply all_cells_in_grid. apply Hs. right. exact Hc.
  - rewrite (filter_ext _ _
               (fun c => tile_class_food (head :: rest) head (food s) c
                           Hhead Hfn)).
    apply (filter_members_length all_cells [food s] all_cells_NoDup).
    + repeat constructor. intros [].
    + intros c [<- | []]. apply all_cells_in_grid. exact Hf.
  - rewrite (filter_ext _ _
               (fun c => tile_class_plain (head :: rest) head (food s) c
                           Hhead)).
    pose proof (filter_split_length
                  (fun c => cell_in c (food s :: head :: rest)) all_cells) as Hsplit.
    rewrite (filter_members_length all_cells (food s :: head :: rest)
               all_cells_NoDup) in Hsplit.
    + pose proof all_cells_length as Hall.
      cbn [List.length] in Hsplit |- *. lia.
    + constructor; assumption.
    + intros c [<- | Hc]; apply all_cells_in_grid; [exact Hf | apply Hs; exact Hc].
Qed.

Lemma board_census_witness :
  exists s head rest,
    played (play 140) = Done s /\
    snake s = head :: rest /\
    Z.of_nat (List.length (tiles s head)) = GRID_SIZE * GRID_SIZE /\
    count_class "tile snake-head" (tiles s head) = 1%nat /\
    count_class "tile snake-body" (tiles s head) = List.length rest /\
    count_class "tile food" (tiles s head) = 1%nat /\
    Z.of_nat (count_class "tile" (tiles s head))
      = GRID_SIZE * GRID_SIZE - Z.of_nat (List.length (snake s)) - 1.
Proof.
  eexists.
  assert (H : played (play 140) = Done _) by (vm_compute; reflexivity).
  destruct (board_census rng_serp _ (played_reachable (play 140) _ H))
    as (head & rest & Hc).
  exists head, rest. split; [exact H | exact Hc].
Defined.

(** The tile of row [x], column [y] is element [x * N + y] of the board,
    and its class tells what is on the cell: the head, another cell of the
    snake, the food (unless the snake covers it), or nothing. *)
Theorem tile_lookup (s : SessionState) (head : Cell) (rest : list Cell)
  (x y : Z) :
  snake s = head :: rest ->
  0 <= x < GRID_SIZE -> 0 <= y < GRID_SIZE ->
  exists cls,
    nth_error (tiles s head) (Z.to_nat (x * GRID_SIZE + y)) = Some cls /\
    (cls = "tile snake-head"%string <-> (x, y) = head) /\
    (cls = "tile snake-body"%string <->
     In (x, y) (snake s) /\ (x, y) <> head) /\
    (cls = "tile food"%string <->
     (x, y) = food s /\ ~ In (x, y) (snake s)) /\
    (cls = "tile"%string <-> ~ In (x, y) (snake s) /\ (x, y) <> food s).
Proof.
  intros Hs Hx Hy.
  exists (tile_class (snake s) head (food s) x y). split.
  - rewrite tiles_all_cells.
    rewrite nth_error_map.
    pose proof (all_cells_nth x y (conj Hx Hy)) as E. unfold Cell in E.
    rewrite E. reflexivity.
  - assert (Hh : In head (snake s)) by (rewrite Hs; left; reflexivity).
    unfold tile_class.
    destruct (cell_eqb (x, y) head) eqn:Eh;
      [apply cell_eqb_eq in Eh | apply cell_eqb_neq in Eh];
      (destruct (cell_in (x, y) (snake s)) eqn:Ei;
       [apply cell_in_In in Ei | apply cell_in_not_In in Ei]);
      (destruct (cell_eqb (x, y) (food s)) eqn:Ef;
       [apply cell_eqb_eq in Ef | apply cell_eqb_neq in Ef]);
      cbn; repeat split; intros; try discriminate; try tauto;
      try (exfalso; rewrite Eh in *; tauto).
Qed.

Lemma tile_lookup_witness :
  exists cls,
    nth_error (tiles scenario4 (3, 3)) (Z.to_nat (3 * GRID_SIZE + 4)) = Some cls /\
    (cls = "tile snake-head"%string <-> (3, 4) = (3, 3)) /\
    (cls = "tile snake-body"%string <->
     In (3, 4) (snake scenario4) /\ (3, 4) <> (3, 3)) /\
    (cls = "tile food"%string <->
     (3, 4) = food scenario4 /\ ~ In (3, 4) (snake scenario4)) /\
    (cls = "tile"%string <->
     ~ In (3, 4) (snake scenario4) /\ (3, 4) <> food scenario4).
Proof.
  apply (tile_lookup scenario4 (3, 3) [(3, 4); (3, 5)] 3 4).
  - reflexivity.
  - unfold GRID_SIZE; lia.
  - unfold GRID_SIZE; lia.
Defined.

(** * One run of the script *)

Section Runs.

Variable rng : nat -> Z * Z.

(** The game loop either ticks a playing session, sleeps and reruns, or
    shows a session that is not playing as it is. *)
Lemma game_loop_inv (fuel : nat) (n : Z) (st : string) (t s' : SessionState)
  (fr : Frame) :
  game_loop rng fuel n st t = Done (s', fr) ->
  (phase_of t = PLAYING /\ move_snake_logic rng fuel t = Done s' /\
   exists board, render_board s' = Done board /\
                 fr = mkFrame n st (Some board) (Some (speed s')) true) \/
  (phase_of t <> PLAYING /\ s' = t /\
   exists board, render_board t = Done board /\
                 fr = mkFrame n st (Some board) None false).
Proof.
  unfold game_loop, phase_of.
  destruct (is_playing t) eqn:Ep, (game_over t) eqn:Eg; cbn [andb orb negb].
  - intros H. right. destruct (render_board t) as [b| |]; try discriminate.
    apply Done_inj in H. injection H as <- <-.
    split; [discriminate|]. split; [reflexivity|]. exists b. split; reflexivity.
  - intros H. left.
    destruct (move_snake_logic rng fuel t) as [s1| |]; try discriminate.
    destruct (render_board s1) as [b| |] eqn:Er; try discriminate.
    apply Done_inj in H. injection H as <- <-.
    split; [reflexivity|]. split; [reflexivity|].
    exists b. split; [exact Er | reflexivity].
  - intros H. right. destruct (render_board t) as [b| |]; try discriminate.
    apply Done_inj in H. injection H as <- <-.
    split; [discriminate|]. split; [reflexivity|]. exists b. split; reflexivity.
  - intros H. right. destruct (render_board t) as [b| |]; try discriminate.
    apply Done_inj in H. injection H as <- <-.
    split; [discriminate|]. split; [reflexivity|]. exists b. split; reflexivity.
Qed.

(** The four direction buttons, read in turn, make one turn at most. *)
Lemma app_unfold (fuel : nat) (click : option Button) (s : SessionState)
  (cursor : nat) :
  app rng fuel click (Some s) cursor
  = if is_playing (click_turn click s) then
      if clicked click PauseGame then
        Done (set_flags (game_over (click_turn click s)) false
                        (click_turn click s),
              mkFrame (score s) (status_text s) None None true)
      else game_loop rng fuel (score s) (status_text s) (click_turn click s)
    else if game_over (click_turn click s)
            || negb (is_playing (click_turn click s)) then
      if clicked click (if negb (game_over (click_turn click s))
                        then StartGame else PlayAgain)
      then
        match reset_game rng fuel (click_turn click s) with
        | Done s5 =>
            Done (s5, mkFrame (score s) (status_text s) None None true)
        | IndexError => IndexError
        | Running => Running
        end
      else game_loop rng fuel (score s) (status_text s) (click_turn click s)
    else game_loop rng fuel (score s) (status_text s) (click_turn click s).
Proof. destruct click as [[]|]; reflexivity. Qed.

(** A run on an existing session: a pause, a reset, or the game loop, on
    the session after the click's turn. *)
Lemma app_inv (fuel : nat) (click : option Button) (s s' : SessionState)
  (cursor : nat) (fr : Frame) :
  app rng fuel click (Some s) cursor = Done (s', fr) ->
  (is_playing s = true /\ click = Some PauseGame /\
   s' = set_flags (game_over s) false s /\
   fr = mkFrame (score s) (status_text s) None None true) \/
  (is_playing s = false /\
   click = Some (if negb (game_over s) then StartGame else PlayAgain) /\
   reset_game rng fuel s = Done s' /\
   fr = mkFrame (score s) (status_text s) None None true) \/
  game_loop rng fuel (score s) (status_text s) (click_turn click s)
    = Done (s', fr).
Proof.
  rewrite app_unfold.
  assert (Hp : is_playing (click_turn click s) = is_playing s).
  { unfold click_turn. destruct (click_direction click) as [d|]; [|reflexivity].
    destruct (handle_direction_cases d s) as [-> | ->]; reflexivity. }
  assert (Hg : game_over (click_turn click s) = game_over s).
  { unfold click_turn. destruct (click_direction click) as [d|]; [|reflexivity].
    destruct (handle_direction_cases d s) as [-> | ->]; reflexivity. }
  rewrite Hp, Hg.
  destruct (is_playing s) eqn:Ep.
  - destruct (clicked click PauseGame) eqn:Ec.
    + intros H. left. destruct click as [[]|]; try discriminate Ec.
      apply Done_inj in H. injection H as <- <-.
      split; [reflexivity|]. split; [reflexivity|]. split; reflexivity.
    + intros H. right; right. exact H.
  - rewrite orb_true_r.
    destruct (clicked click (if negb (game_over s) then StartGame else PlayAgain))
      eqn:Ec.
    + intros H. right; left.
      assert (Hclick : click = Some (if negb (game_over s) then StartGame
                                     else PlayAgain)).
      { destruct click as [[]|], (game_over s); try discriminate Ec; reflexivity. }
      assert (Hturn : click_turn click s = s).
      { rewrite Hclick. destruct (game_over s); reflexivity. }
      rewrite Hturn in H.
      destruct (reset_game rng fuel s) as [s5| |]; try discriminate.
      apply Done_inj in H. injection H as <- <-.
      split; [reflexivity|]. split; [exact Hclick|]. split; reflexivity.
    + intros H. right; right. exact H.
Qed.

(** The first run is a run on the freshly initialised session. *)
Lemma app_fresh (fuel : nat) (click : option Button) (cursor : nat)
  (s0 : SessionState) :
  initialize_game_state rng fuel None cursor = Done s0 ->
  app rng fuel click None cursor = app rng fuel click (Some s0) cursor.
Proof.
  intros H. unfold app. rewrite H. reflexivity.
Qed.

Lemma app_first_inv (fuel : nat) (click : option Button) (cursor : nat)
  (s : SessionState) (fr : Frame) :
  app rng fuel click None cursor = Done (s, fr) ->
  exists s0, initialize_game_state rng fuel None cursor = Done s0 /\
             app rng fuel click (Some s0) cursor = Done (s, fr).
Proof.
  intros H.
  destruct (initialize_game_state rng fuel None cursor) as [s0| |] eqn:E.
  - exists s0. split; [reflexivity|]. rewrite <- (app_fresh fuel click cursor s0 E).
    exact H.
  - unfold app in H. rewrite E in H. discriminate.
  - unfold app in H. rewrite E in H. discriminate.
Qed.

End Runs.

(** * Headings and bodies under the page's buttons *)

Lemma unit_dir_cases (d : Cell) :
  unit_dir d = true ->
  d = (-1, 0) \/ d = (0, -1) \/ d = (0, 1) \/ d = (1, 0).
Proof.
  unfold unit_dir. rewrite !orb_true_iff, !cell_eqb_eq. tauto.
Qed.

Lemma click_direction_unit (click : option Button) (d : Cell) :
  click_direction click = Some d -> unit_dir d = true.
Proof.
  destruct click as [[]|]; cbn; intros H; try discriminate;
    injection H as <-; reflexivity.
Qed.

Lemma step_new_head (s : SessionState) (h : Cell) :
  step_of (new_head_of s h) h = direction s.
Proof.
  unfold step_of, new_head_of. destruct (direction s) as [dx dy], h as [hx hy].
  cbn [fst snd]. f_equal; lia.
Qed.

Lemma chained_removelast (l : list Cell) : chained l -> chained (removelast l).
Proof.
  induction l as [|a l IH]; [trivial|].
  destruct l as [|b l]; [trivial|].
  intros [Hab Hl]. specialize (IH Hl).
  destruct l as [|c l]; [exact I|].
  change (removelast (a :: b :: c :: l)) with (a :: b :: removelast (c :: l)).
  change (removelast (b :: c :: l)) with (b :: removelast (c :: l)) in IH.
  split; assumption.
Qed.

(** The direction after a turn: the old one, or the new one, which is then
    not the reverse of the old one. *)
Lemma handle_direction_heading (d : Cell) (s : SessionState) :
  direction (handle_direction d s) = direction s \/
  (direction (handle_direction d s) = d /\
   d <> (- fst (direction s), - snd (direction s))).
Proof.
  unfold handle_direction. destruct (game_over s); [left; reflexivity|].
  destruct (direction s) as [cx cy] eqn:Ed, d as [nx ny]. cbn [fst snd].
  destruct (cell_eqb (nx, ny) (- cx, - cy)) eqn:E; cbn [negb].
  - left. exact Ed.
  - right. split; [reflexivity | apply cell_eqb_neq; exact E].
Qed.

(** After the click's turn the heading is still a unit step, and while
    playing it does not point from the head back to the neck. *)
Lemma click_turn_heading (click : option Button) (s : SessionState) :
  unit_dir (direction s) = true -> heading_follows s ->
  unit_dir (direction (click_turn click s)) = true /\
  (phase_of s = PLAYING ->
   forall h n rest, snake s = h :: n :: rest ->
                    new_head_of (click_turn click s) h <> n).
Proof.
  intros Hu Hf. unfold click_turn.
  destruct (click_direction click) as [d|] eqn:Ec.
  - pose proof (click_direction_unit click d Ec) as Hd.
    destruct (handle_direction_heading d s) as [He | [He Hne]].
    + split; [rewrite He; exact Hu|].
      intros Hp h n rest Hs Hback. specialize (Hf Hp h n rest Hs).
      unfold new_head_of in Hback. rewrite He, Hf in Hback.
      rewrite Hf in Hu. apply unit_dir_cases in Hu.
      unfold step_of in *. destruct h as [hx hy], n as [nx ny].
      cbn [fst snd] in *. injection Hback as Hx Hy.
      destruct Hu as [H | [H | [H | H]]]; injection H as H1 H2; lia.
    + split; [rewrite He; exact Hd|].
      intros Hp h n rest Hs Hback. specialize (Hf Hp h n rest Hs).
      apply Hne. unfold new_head_of in Hback. rewrite He in Hback.
      rewrite Hf. unfold step_of. destruct h as [hx hy], n as [nx ny], d as [dx dy].
      cbn [fst snd] in *. injection Hback as Hx Hy. f_equal; lia.
  - split; [exact Hu|].
    intros Hp h n rest Hs Hback. specialize (Hf Hp h n rest Hs).
    unfold new_head_of in Hback. rewrite Hf in Hback.
    rewrite Hf in Hu. apply unit_dir_cases in Hu.
    unfold step_of in *. destruct h as [hx hy], n as [nx ny].
    cbn [fst snd] in *. injection Hback as Hx Hy.
    destruct Hu as [H | [H | [H | H]]]; injection H as H1 H2; lia.
Qed.

Lemma click_turn_fields (click : option Button) (s : SessionState) :
  snake (click_turn click s) = snake s /\
  food (click_turn click s) = food s /\
  score (click_turn click s) = score s /\
  speed (click_turn click s) = speed s /\
  game_over (click_turn click s) = game_over s /\
  is_playing (click_turn click s) = is_playing s.
Proof.
  unfold click_turn. destruct (click_direction click) as [d|];
    [|repeat split].
  destruct (handle_direction_cases d s) as [-> | ->]; repeat split.
Qed.

Section Pages.

Variable rng : nat -> Z * Z.

(** A tick keeps the heading a unit step and the body a chain, and leaves
    the heading equal to the step just made. *)
Lemma move_snake_logic_shape (fuel : nat) (t s' : SessionState) :
  unit_dir (direction t) = true -> chained (snake t) ->
  move_snake_logic rng fuel t = Done s' ->
  unit_dir (direction s') = true /\ chained (snake s') /\ heading_follows s'.
Proof.
  intros Hu Hc H.
  destruct (move_snake_logic_inv rng fuel t s' H)
    as (head & rest & Hsn & [[Hcol ->] | [(Hcol & Hfo & f & cur & E & ->)
                                         | (Hcol & Hfo & ->)]]).
  - split; [exact Hu|]. split; [exact Hc|].
    intros Hp. unfold phase_of, set_flags in Hp. cbn in Hp. discriminate.
  - cbn [snake direction]. split; [exact Hu|]. rewrite Hsn in *.
    split.
    + split; [rewrite step_new_head; exact Hu | exact Hc].
    + intros _ h n rest' Hs. cbn [snake direction] in *.
      injection Hs as <- <- _. symmetry. apply step_new_head.
  - unfold set_snake. cbn [snake direction]. split; [exact Hu|].
    rewrite Hsn in *. split.
    + apply chained_removelast.
      split; [rewrite step_new_head; exact Hu | exact Hc].
    + intros _ h n rest' Hs. cbn [snake direction] in Hs |- *.
      destruct rest as [|r rest]; [discriminate Hs|].
      rewrite !removelast_cons_cons in Hs.
      injection Hs as <- <- _. symmetry. apply step_new_head.
Qed.

(** What every run keeps. *)
Lemma app_run_shape (fuel : nat) (click : option Button) (s s' : SessionState)
  (cursor : nat) (fr : Frame) :
  unit_dir (direction s) = true -> chained (snake s) -> heading_follows s ->
  app rng fuel click (Some s) cursor = Done (s', fr) ->
  unit_dir (direction s') = true /\ chained (snake s') /\ heading_follows s'.
Proof.
  intros Hu Hc Hf H.
  destruct (app_inv rng fuel click s s' cursor fr H)
    as [(Hp & _ & -> & _) | [(Hp & _ & Hreset & _) | Hloop]].
  - split; [exact Hu|]. split; [exact Hc|].
    intros Hph. apply phase_playing in Hph. destruct Hph as [Hph _].
    discriminate Hph.
  - destruct (reset_game_done rng fuel s s' Hreset) as (f & cur & _ & ->).
    split; [reflexivity|]. split; [exact I|].
    intros _ h n rest Hs. discriminate Hs.
  - destruct (click_turn_heading click s Hu Hf) as [Hu' _].
    destruct (click_turn_fields click s) as (Hsn & _).
    destruct (game_loop_inv rng fuel _ _ _ s' fr Hloop)
      as [(_ & Hmove & _) | (Hnp & -> & _)].
    + apply (move_snake_logic_shape fuel (click_turn click s) s');
        [exact Hu' | rewrite Hsn; exact Hc | exact Hmove].
    + split; [exact Hu'|]. split; [rewrite Hsn; exact Hc|].
      intros Hph. contradiction.
Qed.

Lemma app_reachable_shape (s : SessionState) :
  app_reachable rng s ->
  unit_dir (direction s) = true /\ chained (snake s) /\ heading_follows s.
Proof.
  induction 1 as [fuel click cursor s fr H | fuel click s s' fr Hr IH H].
  - destruct (app_first_inv rng fuel click cursor s fr H) as (s0 & Hinit & Hrun).
    destruct (initialize_game_state_done rng fuel cursor s0 Hinit)
      as (f & cur & _ & ->).
    refine (app_run_shape fuel click _ s cursor fr _ _ _ Hrun).
    + reflexivity.
    + exact I.
    + intros Hp. discriminate Hp.
  - destruct IH as (Hu & Hc & Hf).
    apply (app_run_shape fuel click s s' (rand_state s) fr); assumption.
Qed.

(** Every run is a sequence of calls of the engine. *)
Lemma app_run_engine (fuel : nat) (click : option Button) (s s' : SessionState)
  (cursor : nat) (fr : Frame) :
  reachable rng s ->
  app rng fuel click (Some s) cursor = Done (s', fr) ->
  reachable rng s'.
Proof.
  intros Hr H.
  assert (Ht : reachable rng (click_turn click s)).
  { unfold click_turn. destruct (click_direction click) as [d|]; [|exact Hr].
    apply (reachable_step rng fuel (Turn d) s); [exact Hr | reflexivity]. }
  destruct (app_inv rng fuel click s s' cursor fr H)
    as [(Hp & _ & -> & _) | [(Hp & _ & Hreset & _) | Hloop]].
  - apply (reachable_step rng fuel Pause s); [exact Hr|].
    cbn [run_event]. unfold pause. rewrite Hp. reflexivity.
  - apply (reachable_step rng fuel Reset s); [exact Hr | exact Hreset].
  - destruct (game_loop_inv rng fuel _ _ _ s' fr Hloop)
      as [(Hph & Hmove & _) | (_ & -> & _)]; [|exact Ht].
    apply (reachable_step rng fuel Tick (click_turn click s)); [exact Ht|].
    cbn [run_event]. rewrite (tick_playing rng fuel _ Hph). exact Hmove.
Qed.

Lemma app_reachable_engine (s : SessionState) :
  app_reachable rng s -> reachable rng s.
Proof.
  induction 1 as [fuel click cursor s fr H | fuel click s s' fr Hr IH H].
  - destruct (app_first_inv rng fuel click cursor s fr H) as (s0 & Hinit & Hrun).
    apply (app_run_engine fuel click s0 s cursor fr); [|exact Hrun].
    apply (reachable_init rng fuel cursor). exact Hinit.
  - apply (app_run_engine fuel click s s' (rand_state s) fr); assumption.
Qed.

End Pages.

Lemma app_runs_reachable (rng : nat -> Z * Z) (fuel : nat)
  (clicks : list (option Button)) (s s' : SessionState) :
  app_reachable rng s -> app_runs rng fuel clicks s = Done s' ->
  app_reachable rng s'.
Proof.
  revert s. induction clicks as [|click clicks IH]; intros s Hr H;
    cbn [app_runs] in H.
  - apply Done_inj in H. subst s'. exact Hr.
  - destruct (app rng fuel click (Some s) (rand_state s)) as [[s1 fr]| |] eqn:E;
      try discriminate.
    apply (IH s1); [|exact H].
    apply (app_next rng fuel click s s1 fr); assumption.
Qed.

Lemma browsed_reachable (clicks : list (option Button)) (s : SessionState) :
  browsed clicks = Done s -> app_reachable rng_serp s.
Proof.
  unfold browsed.
  destruct (app rng_serp 5 None None 0) as [[s0 fr]| |] eqn:E; try discriminate.
  apply app_runs_reachable.
  apply (app_first rng_serp 5 None 0 s0 fr). exact E.
Qed.



(** Every session the page can be in is a reachable session of the engine;
    its heading is one of the four unit steps of the direction buttons, and
    every cell of its body is one unit step away from the next. *)
Theorem app_body_chained (rng : nat -> Z * Z) (s : SessionState) :
  app_reachable rng s ->
  reachable rng s /\
  (direction s = (-1, 0) \/ direction s = (0, -1) \/
   direction s = (0, 1) \/ direction s = (1, 0)) /\
  chained (snake s).
Proof.
  intros H.
  destruct (app_reachable_shape rng s H) as (Hu & Hc & _).
  split; [apply app_reachable_engine; exact H|].
  split; [apply unit_dir_cases; exact Hu | exact Hc].
Qed.

Lemma app_body_chained_witness :
  exists s, browsed bite_clicks = Done s /\
            snake s = [(0, 1); (0, 2)] /\
            reachable rng_serp s /\
            (direction s = (-1, 0) \/ direction s = (0, -1) \/
             direction s = (0, 1) \/ direction s = (1, 0)) /\
            chained (snake s).
Proof.
  eexists. split; [vm_compute; reflexivity|]. split; [reflexivity|].
  apply (app_body_chained rng_serp).
  apply (browsed_reachable bite_clicks). vm_compute. reflexivity.
Defined.



(** A paused game cannot be resumed.  A run from a session that is not
    playing either leaves it not playing, with body, food, score and speed
    as they were, or starts a fresh game: one cell, heading right, score 0,
    initial speed. *)
Theorem app_no_resume (rng : nat -> Z * Z) (fuel : nat)
  (click : option Button) (s s' : SessionState) (cursor : nat) (fr : Frame) :
  is_playing s = false ->
  app rng fuel click (Some s) cursor = Done (s', fr) ->
  (is_playing s' = false /\ snake s' = snake s /\ food s' = food s /\
   score s' = score s /\ speed s' = speed s /\ game_over s' = game_over s) \/
  (phase_of s' = PLAYING /\ snake s' = [(GRID_SIZE / 2, GRID_SIZE / 2)] /\
   direction s' = (0, 1) /\ score s' = 0 /\ speed s' = INITIAL_SPEED).
Proof.
  intros Hp H.
  destruct (click_turn_fields click s) as (Hsn & Hfd & Hsc & Hsp & Hg & Hpl).
  destruct (app_inv rng fuel click s s' cursor fr H)
    as [(Hplay & _) | [(_ & _ & Hreset & _) | Hloop]].
  - congruence.
  - right. destruct (reset_game_done rng fuel s s' Hreset) as (f & cur & _ & ->).
    repeat split.
  - left. destruct (game_loop_inv rng fuel _ _ _ s' fr Hloop)
      as [(Hph & _) | (_ & -> & _)].
    + apply phase_playing in Hph. destruct Hph as [Hph _]. congruence.
    + rewrite Hpl, Hsn, Hfd, Hsc, Hsp, Hg. repeat split. exact Hp.
Qed.

Lemma app_no_resume_witness :
  exists s1 f1 s2 f2,
    app rng_cycle 5 (Some ButtonDown) (Some paused_session) 0 = Done (s1, f1) /\
    app rng_cycle 5 (Some StartGame) (Some paused_session) 0 = Done (s2, f2) /\
    score s1 = 1 /\ is_playing s1 = false /\ score s2 = 0 /\
    ((is_playing s2 = false /\ snake s2 = snake paused_session /\
      food s2 = food paused_session /\ score s2 = score paused_session /\
      speed s2 = speed paused_session /\
      game_over s2 = game_over paused_session) \/
     (phase_of s2 = PLAYING /\ snake s2 = [(GRID_SIZE / 2, GRID_SIZE / 2)] /\
      direction s2 = (0, 1) /\ score s2 = 0 /\ speed s2 = INITIAL_SPEED)).
Proof.
  eexists. eexists. eexists. eexists.
  split; [vm_compute; reflexivity|]. split; [vm_compute; reflexivity|].
  split; [reflexivity|]. split; [reflexivity|]. split; [reflexivity|].
  refine (app_no_resume rng_cycle 5 (Some StartGame) paused_session _ 0 _ _ _).
  - reflexivity.
  - vm_compute. reflexivity.
Defined.

(** What a run shows.  The score and the status at the top of the page are
    those of the session before the run; a board, when one is drawn, is
    that of the session after the run; the script sleeps only after a tick,
    for the speed the tick has left; a run that leaves the session playing
    always ends in a rerun, and a run that does not rerun has drawn the
    board and changed nothing but, possibly, the heading. *)
Theorem app_frame (rng : nat -> Z * Z) (fuel : nat) (click : option Button)
  (s s' : SessionState) (cursor : nat) (fr : Frame) :
  app rng fuel click (Some s) cursor = Done (s', fr) ->
  shown_score fr = score s /\
  shown_status fr = status_text s /\
  (forall board, shown_board fr = Some board -> render_board s' = Done board) /\
  (forall d, slept fr = Some d ->
             d = speed s' /\ reran fr = true /\
             phase_of (click_turn click s) = PLAYING /\
             tick rng fuel (click_turn click s) = Done s') /\
  (phase_of s' = PLAYING -> reran fr = true) /\
  (reran fr = false -> s' = click_turn click s /\ shown_board fr <> None).
Proof.
  intros H.
  destruct (app_inv rng fuel click s s' cursor fr H)
    as [(_ & _ & _ & ->) | [(_ & _ & _ & ->) | Hloop]].
  - cbn. repeat split; intros; discriminate.
  - cbn. repeat split; intros; discriminate.
  - destruct (game_loop_inv rng fuel _ _ _ s' fr Hloop)
      as [(Hph & Hmove & b & Hb & ->) | (Hnp & -> & b & Hb & ->)]; cbn.
    + split; [reflexivity|]. split; [reflexivity|].
      split; [intros board Hboard; injection Hboard as <-; exact Hb|].
      split.
      * intros d Hd. injection Hd as <-.
        split; [reflexivity|]. split; [reflexivity|]. split; [exact Hph|].
        rewrite (tick_playing rng fuel _ Hph). exact Hmove.
      * split; [reflexivity | discriminate].
    + split; [reflexivity|]. split; [reflexivity|].
      split; [intros board Hboard; injection Hboard as <-; exact Hb|].
      split; [intros d Hd; discriminate|].
      split; [intros Hph; contradiction|].
      intros _. split; [reflexivity | discriminate].
Qed.

Lemma app_frame_witness :
  exists s' fr,
    app rng_cycle 5 None (Some scenario2) 0 = Done (s', fr) /\
    score s' = 5 /\ shown_score fr = 4 /\
    slept fr = Some (level 1) /\
    shown_score fr = score scenario2 /\
    shown_status fr = status_text scenario2 /\
    (forall board, shown_board fr = Some board -> render_board s' = Done board) /\
    (forall d, slept fr = Some d ->
               d = speed s' /\ reran fr = true /\
               phase_of (click_turn None scenario2) = PLAYING /\
               tick rng_cycle 5 (click_turn None scenario2) = Done s') /\
    (phase_of s' = PLAYING -> reran fr = true) /\
    (reran fr = false -> s' = click_turn None scenario2 /\ shown_board fr <> None).
Proof.
  eexists. eexists.
  split; [vm_compute; reflexivity|].
  split; [reflexivity|]. split; [reflexivity|]. split; [reflexivity|].
  apply (app_frame rng_cycle 5 None scenario2 _ 0). vm_compute. reflexivity.
Defined.

(** * Turning twice *)

(** Asking twice for the same direction is asking once. *)
Theorem handle_direction_idempotent (d : Cell) (s : SessionState) :
  handle_direction d (handle_direction d s) = handle_direction d s.
Proof.
  destruct (handle_direction_cases d s) as [H | H]; rewrite !H.
  - reflexivity.
  - destruct (handle_direction_cases d (set_direction d s)) as [H' | H'];
      rewrite H'; reflexivity.
Qed.

(** The guard of [handle_direction] looks at the stored heading only: one
    turn never reverses the heading of a session that is not over, but two
    turns do, through a direction at right angles. *)
Theorem turn_twice_reverses (s : SessionState) :
  game_over s = false ->
  unit_dir (direction s) = true ->
  direction (handle_direction (- fst (direction s), - snd (direction s)) s)
  = direction s /\
  exists d,
    unit_dir d = true /\
    direction (handle_direction (- fst (direction s), - snd (direction s))
                                (handle_direction d s))
    = (- fst (direction s), - snd (direction s)).
Proof.
  intros Hg Hu. apply unit_dir_cases in Hu. split.
  - destruct (handle_direction_heading
                (- fst (direction s), - snd (direction s)) s) as [H | [_ H]];
      [exact H | contradiction H; reflexivity].
  - exists (snd (direction s), fst (direction s)).
    unfold handle_direction. rewrite Hg.
    destruct Hu as [H | [H | [H | H]]]; rewrite H; cbn; rewrite ?Hg;
      split; reflexivity.
Qed.

Lemma turn_twice_reverses_witness :
  direction (handle_direction (- fst (direction scenario4),
                               - snd (direction scenario4)) scenario4)
  = direction scenario4 /\
  exists d,
    unit_dir d = true /\
    direction (handle_direction (- fst (direction scenario4),
                                 - snd (direction scenario4))
                                (handle_direction d scenario4))
    = (- fst (direction scenario4), - snd (direction scenario4)).
Proof.
  apply (turn_twice_reverses scenario4); reflexivity.
Defined.

(** * Uniform draws, in numbers *)

(** Rejection sampling in numbers: of the (N*N)^n equally likely sequences
    of [n] draws, exactly (occupied cells)^n leave the loop of [place_food]
    running after [n] iterations. *)
Theorem place_food_survivors (body : list Cell) (n : nat) :
  Z.of_nat (List.length (draw_sequences n))
  = (GRID_SIZE * GRID_SIZE) ^ Z.of_nat n /\
  Z.of_nat (List.length (filter (still_running body n) (draw_sequences n)))
  = Z.of_nat (List.length (occupied body)) ^ Z.of_nat n.
Proof.
  destruct (place_food_running_count body n) as [Hr Ht].
  rewrite Hr, Ht, !Nat2Z.inj_pow, all_cells_length. split; reflexivity.
Qed.
